(** * stargate-tools: yield report of the Stargate LP-staking contract

    A shallow embedding of [main.ts].  The script is one straight-line
    asynchronous flow; every stage that computes something is embedded
    here as a function of the values the on-chain reads and the price
    service returned:

    - [JS]          the JavaScript values the script computes with
                    (BigInt, Number as IEEE-754 binary64, exceptions);
    - [BlockTime]   average block time and block counts  (lines 139-147);
    - [Selector]    the active-pool filter                (lines 172-200);
    - [Metrics]     rewards, APY and user share per pool  (lines 213-236);
    - [Valuation]   the token price table                 (lines 273-334);
    - [Reporter]    the per-pool report loop              (lines 346-445). *)

From Stdlib Require Import ZArith Lia Floats.SpecFloat.
From stdpp Require Import base strings list sorting gmap.

Local Open Scope Z_scope.

(* ===================================================================== *)
(** * JavaScript values                                                    *)
(* ===================================================================== *)

Module JS.

(** The exceptions the embedded code can raise. *)
Inductive exn : Set :=
| RangeError      (* BigInt division by zero, negative BigInt exponent,
                     BigInt too large *)
| TypeError       (* property read on [undefined] *)
| RequestFailed.  (* rejected promise of a call to the price service *)

(** Outcome of an expression that may throw. *)
Inductive result (A : Type) : Type :=
| Ok (a : A)
| Throw (e : exn).
Arguments Ok {A} a.
Arguments Throw {A} e.

(** Sequencing stops at the first exception; [x ← r; k] is stdpp's
    notation for it. *)
#[global] Instance result_ret : MRet result := fun A a => Ok a.
#[global] Instance result_bind : MBind result := fun A B k r =>
  match r with
  | Ok a => k a
  | Throw e => Throw e
  end.

(** ** BigInt *)

(** [a / b] on BigInt truncates towards zero and throws on [b = 0n]. *)
Definition bigint_div (a b : Z) : result Z :=
  if decide (b = 0) then Throw RangeError else Ok (Z.quot a b).

(** The largest BigInt the engine holds has [2^30] bits. *)
Definition maxBigIntBits : Z := 2 ^ 30.

(** [a ** b] on BigInt throws on a negative exponent and when the
    result is too large to hold: for a base other than 0, 1 and -1 an
    exponent of [2^30] or more is refused at once, and a smaller one
    when the power has more than [2^30] bits. *)
Definition bigint_pow (a b : Z) : result Z :=
  if decide (b < 0) then Throw RangeError
  else if decide (Z.abs a <= 1) then Ok (a ^ b)
  else if decide (maxBigIntBits <= b) then Throw RangeError
  else if decide (Z.log2 (Z.abs (a ^ b)) < maxBigIntBits) then Ok (a ^ b)
  else Throw RangeError.

(** ** Number: IEEE-754 binary64, round to nearest, ties to even *)

Definition number : Set := spec_float.

Definition prec : Z := 53.
Definition emax : Z := 1024.

Definition mul : number -> number -> number := SFmul prec emax.
Definition div : number -> number -> number := SFdiv prec emax.

Definition NaN : number := S754_nan.
Definition pInf : number := S754_infinity false.
Definition pZero : number := S754_zero false.

(** [Number(b)] for a BigInt [b]: the nearest double. *)
Definition Number (b : Z) : number := binary_normalize prec emax b 0 false.

(** The literals of the script. *)
Definition n100 : number := Eval vm_compute in Number 100.
Definition n7 : number := Eval vm_compute in Number 7.
Definition n4 : number := Eval vm_compute in Number 4.
Definition n52 : number := Eval vm_compute in Number 52.
Definition n1 : number := Eval vm_compute in Number 1.

(** [parseFloat(formatUnits(v, d))] for [0 <= d].  [formatUnits] prints
    the exact decimal expansion of [v / 10^d]; [parseFloat] reads it
    back as the nearest double.  [SFdiv] divides the integer mantissas
    exactly, keeps the position of the remainder and rounds once, so on
    the two integers themselves it is that correctly rounded quotient. *)
Definition parseFloat_formatUnits (v d : Z) : number :=
  match v, 10 ^ d with
  | Z0, _ => pZero
  | Zpos m, Zpos p => div (S754_finite false m 0) (S754_finite false p 0)
  | Zneg m, Zpos p => div (S754_finite true m 0) (S754_finite false p 0)
  | _, _ => NaN
  end.

(** A Number that is neither NaN nor an infinity. *)
Definition isFinite (x : number) : bool :=
  match x with
  | S754_zero _ | S754_finite _ _ _ => true
  | S754_infinity _ | S754_nan => false
  end.

(** [x !== 0] on Numbers: NaN and the infinities are not zero. *)
Definition isZero (x : number) : bool :=
  match x with
  | S754_zero _ => true
  | _ => false
  end.

(** [ToNumber] of a property that may be [undefined]. *)
Definition ofUndefined (x : option number) : number :=
  match x with
  | Some v => v
  | None => NaN
  end.

End JS.

Import JS.

(* ===================================================================== *)
(** * Block time and block counts (lines 139-147)                          *)
(* ===================================================================== *)

Module BlockTime.

Record BlockCounts : Set := mkBlockCounts {
  blocksPerHour : Z;
  blocksPerDay : Z;
  blocksPerWeek : Z;
  blocksPerMonth : Z;
  blocksPerYear : Z
}.

(** Line 139: the timestamps of the latest block and of the block 100
    blocks before it. *)
Definition avgBlockTime (latestTimestamp blockTimestamp : Z) : result Z :=
  bigint_div (latestTimestamp - blockTimestamp) 100.

(** Lines 143-147. *)
Definition blockCounts (avgBlockTime : Z) : result BlockCounts :=
  blocksPerHour ← bigint_div 3600 avgBlockTime;
  let blocksPerDay := blocksPerHour * 24 in
  let blocksPerWeek := blocksPerDay * 7 in
  let blocksPerMonth := blocksPerWeek * 4 in
  let blocksPerYear := blocksPerMonth * 12 in
  Ok (mkBlockCounts blocksPerHour blocksPerDay blocksPerWeek
                    blocksPerMonth blocksPerYear).

(** All five block counts are positive. *)
Definition all_positive (bc : BlockCounts) : Prop :=
  0 < blocksPerHour bc /\ 0 < blocksPerDay bc /\ 0 < blocksPerWeek bc /\
  0 < blocksPerMonth bc /\ 0 < blocksPerYear bc.

(** The cascade of section 3 of the specification. *)
Definition cascade (bc : BlockCounts) : Prop :=
  blocksPerDay bc = blocksPerHour bc * 24 /\
  blocksPerWeek bc = blocksPerDay bc * 7 /\
  blocksPerMonth bc = blocksPerWeek bc * 4 /\
  blocksPerYear bc = blocksPerMonth bc * 12.

End BlockTime.

Import BlockTime.

(* ===================================================================== *)
(** * Active pools (lines 172-200)                                         *)
(* ===================================================================== *)

Module Selector.

(** The tuple returned by [poolInfo(pid)]: [pool[0]] .. [pool[3]]. *)
Record PoolInfo : Set := mkPoolInfo {
  pi_lpToken : string;
  pi_allocPoint : Z;
  pi_lastRewardBlock : Z;
  pi_accStargatePerShare : Z
}.

(** The tuple returned by [userInfo(pid, address)]. *)
Record UserInfo : Set := mkUserInfo {
  ui_amount : Z;
  ui_rewardDebt : Z
}.

(** One element of [pools]: [[pid, pool, userInfo]]. *)
Definition PoolEntry : Set := nat * PoolInfo * UserInfo.

(** The three components [pid], [pool] and [userInfo] of an entry. *)
Definition entryPid (e : PoolEntry) : nat := e.1.1.
Definition entryPool (e : PoolEntry) : PoolInfo := e.1.2.
Definition entryUser (e : PoolEntry) : UserInfo := e.2.

(** The object built by the [.map] of lines 186-200; [contract] is the
    pool contract, identified by its address. *)
Record ActivePool : Set := mkActivePool {
  pid : Z;
  contract : string;
  allocPoint : Z;
  lastRewardBlock : Z;
  accStargatePerShare : Z;
  userStaked : Z;
  rewardDebt : Z
}.

(** Lines 172-180: one entry per pool ordinal [0 .. poolLength-1]. *)
Definition fetchPools (poolLength : nat) (poolInfo : Z -> PoolInfo)
    (userInfo : Z -> UserInfo) : list PoolEntry :=
  (fun pid : nat => (pid, poolInfo (Z.of_nat pid), userInfo (Z.of_nat pid)))
    <$> seq 0 poolLength.

(** The predicate of the [.filter] (lines 181-185). *)
Definition isActive (e : PoolEntry) : bool :=
  let '(_, pool, userInfo) := e in
  bool_decide (pi_allocPoint pool > 0) && bool_decide (ui_amount userInfo > 0).

Definition toActive (e : PoolEntry) : ActivePool :=
  let '(pid, pool, userInfo) := e in
  {| pid := Z.of_nat pid;
     contract := pi_lpToken pool;
     allocPoint := pi_allocPoint pool;
     lastRewardBlock := pi_lastRewardBlock pool;
     accStargatePerShare := pi_accStargatePerShare pool;
     userStaked := ui_amount userInfo;
     rewardDebt := ui_rewardDebt userInfo |}.

(** Lines 181-200. *)
Definition activePools (pools : list PoolEntry) : list ActivePool :=
  toActive <$> filter (fun e => isActive e = true) pools.

End Selector.

Import Selector.

(* ===================================================================== *)
(** * Rewards, APY and user share of one pool (lines 203-266)              *)
(* ===================================================================== *)

Module Metrics.

Definition STG_DECIMALS : Z := 18.
Definition STG_TICKER : string := "STG".

(** What the callback reads for one active pool: [name()], [token()] and
    [decimals()] of the pool contract, [name()] of the underlying
    ERC-20, [lpBalances(pid)] and [pendingStargate(pid, address)]. *)
Record PoolReads : Set := mkPoolReads {
  r_lpToken : string;
  r_token : string;
  r_decimals : Z;
  r_underlyingToken : string;
  r_lpSupply : Z;
  r_pendingStg : Z
}.

(** Lines 215-219. *)
Definition stgPerBlockF (stgPerBlock : Z) : number :=
  parseFloat_formatUnits stgPerBlock STG_DECIMALS.

Definition poolRewardPerBlock (stgPerBlock allocPoint totalAllocPoint : Z)
    : number :=
  mul (stgPerBlockF stgPerBlock)
      (div (Number allocPoint) (Number totalAllocPoint)).

(** Lines 221-224: [rewardPerBlock * Number(blocks)]. *)
Definition rewardPer (rewardPerBlock : number) (blocks : Z) : number :=
  mul rewardPerBlock (Number blocks).

(** Line 226: [Number(lpSupply / 10n ** decimals)]. *)
Definition stakedTokensOf (lpSupply decimals : Z) : result number :=
  unit ← bigint_pow 10 decimals;
  whole ← bigint_div lpSupply unit;
  Ok (Number whole).

(** Line 227: [rewardPerWeek * 100 / stakedTokens]. *)
Definition weeklyAPYOf (rewardPerWeek stakedTokens : number) : number :=
  div (mul rewardPerWeek n100) stakedTokens.

(** Line 232: [(Number(pool.userStaked) * 100) / staked] with
    [staked = Number(lpSupply)] (line 214). *)
Definition userStakedPctOf (userStaked lpSupply : Z) : number :=
  div (mul (Number userStaked) n100) (Number lpSupply).

(** Lines 233-236: [(reward * userStakedPct) / 100]. *)
Definition userReward (reward userStakedPct : number) : number :=
  div (mul reward userStakedPct) n100.

(** The object returned by the callback (lines 242-265).  [pool] holds
    the spread [...pool]; the [erc20] contract handle is its address
    [token]. *)
Record PoolMetrics : Set := mkPoolMetrics {
  pool : ActivePool;
  decimals : Z;
  staked : Z;
  lpToken : string;
  token : string;
  pendingStg : Z;
  underlyingToken : string;
  rewardPerBlock : number;
  rewardPerDay : number;
  rewardPerWeek : number;
  rewardPerMonth : number;
  rewardPerYear : number;
  dailyAPY : number;
  weeklyAPY : number;
  monthlyAPY : number;
  yearlyAPY : number;
  userStakedPct : number;
  userDailyReward : number;
  userWeeklyReward : number;
  userMonthlyReward : number;
  userYearlyReward : number
}.

(** Lines 203-266, for one active pool. *)
Definition poolMetrics (stgPerBlock totalAllocPoint : Z) (bc : BlockCounts)
    (p : ActivePool) (r : PoolReads) : result PoolMetrics :=
  let lpSupply := r_lpSupply r in
  let rewardPerBlock :=
    poolRewardPerBlock stgPerBlock (allocPoint p) totalAllocPoint in
  let rewardPerDay := rewardPer rewardPerBlock (blocksPerDay bc) in
  let rewardPerWeek := rewardPer rewardPerBlock (blocksPerWeek bc) in
  let rewardPerMonth := rewardPer rewardPerBlock (blocksPerMonth bc) in
  let rewardPerYear := rewardPer rewardPerBlock (blocksPerYear bc) in
  stakedTokens ← stakedTokensOf lpSupply (r_decimals r);
  let weeklyAPY := weeklyAPYOf rewardPerWeek stakedTokens in
  let dailyAPY := div weeklyAPY n7 in
  let monthlyAPY := mul weeklyAPY n4 in
  let yearlyAPY := mul weeklyAPY n52 in
  let userStakedPct := userStakedPctOf (userStaked p) lpSupply in
  let userDailyReward := userReward rewardPerDay userStakedPct in
  let userWeeklyReward := userReward rewardPerWeek userStakedPct in
  let userMonthlyReward := userReward rewardPerMonth userStakedPct in
  let userYearlyReward := userReward rewardPerYear userStakedPct in
  Ok {| pool := p;
        decimals := r_decimals r;
        staked := lpSupply;
        lpToken := r_lpToken r;
        token := r_token r;
        pendingStg := r_pendingStg r;
        underlyingToken := r_underlyingToken r;
        rewardPerBlock := rewardPerBlock;
        rewardPerDay := rewardPerDay;
        rewardPerWeek := rewardPerWeek;
        rewardPerMonth := rewardPerMonth;
        rewardPerYear := rewardPerYear;
        dailyAPY := dailyAPY;
        weeklyAPY := weeklyAPY;
        monthlyAPY := monthlyAPY;
        yearlyAPY := yearlyAPY;
        userStakedPct := userStakedPct;
        userDailyReward := userDailyReward;
        userWeeklyReward := userWeeklyReward;
        userMonthlyReward := userMonthlyReward;
        userYearlyReward := userYearlyReward |}.

(** The object [poolMetrics] returns when line 226 yields [stakedTokens]
    (the result of [poolMetrics] with the denominator as an argument). *)
Definition metricsWith (stgPerBlock totalAllocPoint : Z) (bc : BlockCounts)
    (p : ActivePool) (r : PoolReads) (stakedTokens : number) : PoolMetrics :=
  let rewardPerBlock :=
    poolRewardPerBlock stgPerBlock (allocPoint p) totalAllocPoint in
  let weeklyAPY :=
    weeklyAPYOf (rewardPer rewardPerBlock (blocksPerWeek bc)) stakedTokens in
  let userStakedPct := userStakedPctOf (userStaked p) (r_lpSupply r) in
  {| pool := p;
     decimals := r_decimals r;
     staked := r_lpSupply r;
     lpToken := r_lpToken r;
     token := r_token r;
     pendingStg := r_pendingStg r;
     underlyingToken := r_underlyingToken r;
     rewardPerBlock := rewardPerBlock;
     rewardPerDay := rewardPer rewardPerBlock (blocksPerDay bc);
     rewardPerWeek := rewardPer rewardPerBlock (blocksPerWeek bc);
     rewardPerMonth := rewardPer rewardPerBlock (blocksPerMonth bc);
     rewardPerYear := rewardPer rewardPerBlock (blocksPerYear bc);
     dailyAPY := div weeklyAPY n7;
     weeklyAPY := weeklyAPY;
     monthlyAPY := mul weeklyAPY n4;
     yearlyAPY := mul weeklyAPY n52;
     userStakedPct := userStakedPct;
     userDailyReward :=
       userReward (rewardPer rewardPerBlock (blocksPerDay bc)) userStakedPct;
     userWeeklyReward :=
       userReward (rewardPer rewardPerBlock (blocksPerWeek bc)) userStakedPct;
     userMonthlyReward :=
       userReward (rewardPer rewardPerBlock (blocksPerMonth bc)) userStakedPct;
     userYearlyReward :=
       userReward (rewardPer rewardPerBlock (blocksPerYear bc)) userStakedPct |}.

(** Lines 202-267: [Promise.all] over the active pools; the first
    exception rejects the whole batch. *)
Definition activePoolsWithNames (stgPerBlock totalAllocPoint : Z)
    (bc : BlockCounts) (reads : Z -> PoolReads) (pools : list ActivePool)
    : result (list PoolMetrics) :=
  mapM (fun p => poolMetrics stgPerBlock totalAllocPoint bc p (reads (pid p)))
       pools.

(** ** The user share as the specification words it

    "userStakedPct = userStakedAmount × 100 / poolTotalStaked (both in
    decimal token units, consistent with APYCalculator's denominator)".
    Three readings: over the denominator of line 226, the user's amount
    taken as the decimal amount ([exact]) or, like that denominator, as
    whole tokens ([whole]); or both amounts taken as decimal amounts
    ([decimal]). *)
Definition userStakedPct_spec_exact (userStaked lpSupply decimals : Z)
    : result number :=
  stakedTokens ← stakedTokensOf lpSupply decimals;
  Ok (div (mul (parseFloat_formatUnits userStaked decimals) n100) stakedTokens).

Definition userStakedPct_spec_whole (userStaked lpSupply decimals : Z)
    : result number :=
  stakedTokens ← stakedTokensOf lpSupply decimals;
  userTokens ← stakedTokensOf userStaked decimals;
  Ok (div (mul userTokens n100) stakedTokens).

Definition userStakedPct_spec_decimal (userStaked lpSupply decimals : Z)
    : number :=
  div (mul (parseFloat_formatUnits userStaked decimals) n100)
      (parseFloat_formatUnits lpSupply decimals).

(** ** The APY as the specification words it

    "weeklyAPY = rewardPerWeek × 100 / stakedTokens (staked amount
    converted to decimal units)": the denominator read as the decimal
    amount [lpSupply / 10^decimals]. *)
Definition weeklyAPY_spec (rewardPerWeek : number) (lpSupply decimals : Z)
    : number :=
  div (mul rewardPerWeek n100) (parseFloat_formatUnits lpSupply decimals).

(** "within floating-point tolerance 1e-9": the comparison
    [Math.abs(x - y) <= 1e-9] on Numbers. *)
Definition tolerance : number := Eval vm_compute in parseFloat_formatUnits 1 9.

Definition withinTolerance (x y : number) : bool :=
  SFleb (SFabs (SFsub prec emax x y)) tolerance.

End Metrics.

Import Metrics.

(* ===================================================================== *)
(** * Token prices (lines 273-334)                                         *)
(* ===================================================================== *)

Module Valuation.

Record ContractAddresses : Set := mkContractAddresses {
  LP_STAKING : string;
  USDC : string;
  USDT : string
}.

(** Lines 23-39. *)
Definition CONTRACT_ADDRESSES_MAP : gmap string ContractAddresses :=
  <["mainnet" := {| LP_STAKING := "0xB0D502E938ed5f4df2E681fE6E419ff29631d62b";
                    USDC := "0xA0b86991c6218b36c1d19D4a2e9Eb0cE3606eB48";
                    USDT := "0xdAC17F958D2ee523a2206206994597C13D831ec7" |}]>
  (<["bsc" := {| LP_STAKING := "0x3052A0F6ab15b4AE1df39962d5DdEFacA86DaB47";
                 USDC := "0x8AC76a51cc950d9822D68b83fE1Ad97B32Cd580d";
                 USDT := "0x55d398326f99059fF775485246999027B3197955" |}]>
  (<["polygon" := {| LP_STAKING := "0x8731d54E9D02c286767d56ac03e8037C07e01e98";
                     USDC := "0x2791Bca1f2de4661ED88A30C99A7a9449Aa84174";
                     USDT := "0xc2132D05D31c914a87C6611C10748AEb04B58e8F" |}]>
   ∅)).

(** The table is a plain object: besides its three keys, the members of
    [Object.prototype] are found under their names. *)
Definition objectPrototypeKeys : list string :=
  ["constructor"; "toString"; "toLocaleString"; "valueOf"; "hasOwnProperty";
   "isPrototypeOf"; "propertyIsEnumerable"; "__proto__"; "__defineGetter__";
   "__defineSetter__"; "__lookupGetter__"; "__lookupSetter__"].

(** [CONTRACT_ADDRESSES_MAP[args.chain].X]: a property read on
    [undefined] when the chain is not a key of the table.  This is the
    lookup for the names outside [objectPrototypeKeys]; under one of
    those the script finds an inherited member, on which the property
    read gives [undefined] and does not throw. *)
Definition addressesOf (chain : string) : result ContractAddresses :=
  match CONTRACT_ADDRESSES_MAP !! chain with
  | Some a => Ok a
  | None => Throw TypeError
  end.

(** viem's [zeroAddress]. *)
Definition zeroAddress : string :=
  "0x0000000000000000000000000000000000000000".

(** An entry of [tokenPrices]; either property may be missing. *)
Record PriceEntry : Set := mkPriceEntry {
  usd : option number;
  ticker : option string
}.

(** The argument of [cg.simpleTokenPrice]. *)
Record TokenPriceRequest : Set := mkTokenPriceRequest {
  id : string;
  contract_addresses : string;
  vs_currencies : string
}.

(** The price service: for each request, the object it answers with or
    a rejection. *)
Record PriceFeed : Type := mkPriceFeed {
  simpleTokenPrice : TokenPriceRequest -> result (gmap string PriceEntry);
  simplePrice : string -> result (gmap string PriceEntry)
}.

(** Lines 275-278. *)
Definition stableCoins (a : ContractAddresses) : list string :=
  [USDC a; USDT a].

(** Lines 279-281. *)
Definition filteredTokens (a : ContractAddresses) (tokens : list string)
    : list string :=
  filter (fun token => token ∉ stableCoins a) tokens.

(** Lines 286-292: the request, issued only when [filteredTokens] is
    not empty. *)
Definition tokenPriceRequest (filteredTokens : list string)
    : option TokenPriceRequest :=
  if decide (length filteredTokens = 0%nat) then None
  else Some {| id := "ethereum";
               contract_addresses :=
                 if decide (1 < length filteredTokens)%nat
                 then String.concat "," filteredTokens
                 else default ""%string (head filteredTokens);
               vs_currencies := "usd" |}.

(** Lines 304-322. *)
Definition nativeTokenOf (chain : string) : string * string :=
  if decide (chain = "mainnet") then ("ethereum", "ETH")
  else if decide (chain = "bsc") then ("binancecoin", "BNB")
  else if decide (chain = "polygon") then ("matic-network", "MATIC")
  else ("ethereum", "ETH").

Definition one : number := n1.

(** [{...entry, ticker: t}]. *)
Definition withTicker (entry : option PriceEntry) (t : string) : PriceEntry :=
  {| usd := entry ≫= usd; ticker := Some t |}.

(** Lines 273-334. *)
Definition tokenPrices (chain : string) (cg : PriceFeed)
    (stargateTokenAddress : string) (tokens : list string)
    : result (gmap string PriceEntry) :=
  a ← addressesOf chain;
  let filteredTokens := filteredTokens a tokens in
  tokenPrices ← match tokenPriceRequest filteredTokens with
                 | None => Ok ∅
                 | Some request => simpleTokenPrice cg request
                 end;
  let tokenPrices :=
    <[USDC a := {| usd := Some one; ticker := Some "USDC"%string |}]> tokenPrices in
  let tokenPrices :=
    <[USDT a := {| usd := Some one; ticker := Some "USDT"%string |}]> tokenPrices in
  let '(nativeToken, nativeTokenTicker) := nativeTokenOf chain in
  pricesResponse ← simplePrice cg (String.concat "," ["stargate-finance"; nativeToken]);
  let tokenPrices :=
    <[stargateTokenAddress :=
        withTicker (pricesResponse !! "stargate-finance") STG_TICKER]> tokenPrices in
  let tokenPrices :=
    <[zeroAddress := withTicker (pricesResponse !! nativeToken) nativeTokenTicker]>
      tokenPrices in
  Ok tokenPrices.

End Valuation.

Import Valuation.

(* ===================================================================== *)
(** * The report (lines 346-445) and the whole run                         *)
(* ===================================================================== *)

Module Reporter.

(** One [console.log] of the pool loop.  The formatting functions are
    kept symbolic: a line records which of them is applied to which
    value. *)
Inductive line : Set :=
| Header (index : nat)                                    (* |- Pool i: *)
| Str (label value : string)
| Units (label : string) (value decimals : Z) (unit : string) (* formatUnits *)
| Fixed (label : string) (value : number) (digits : nat)  (* toFixed *)
| Money (label : string) (value : number)                 (* humanizeMoneyValue *)
| Rule.                                                   (* | *)

(** Lines 347-407: the lines in token units. *)
Definition tokenLines (verbose : bool) (index : nat) (p : PoolMetrics)
    : list line :=
  [ Header index;
    Str "LP Asset" (lpToken p);
    Str "Underlying Asset" (underlyingToken p);
    Str "LP Token Address" (contract (pool p));
    Str "Token Address" (token p) ]
  ++ (if verbose then [ Units "Staked" (staked p) (decimals p) (lpToken p) ]
      else [])
  ++ [ Units "User Staked" (userStaked (pool p)) (decimals p) (lpToken p);
       Units "Pending STG" (pendingStg p) STG_DECIMALS STG_TICKER ]
  ++ (if verbose then
        [ Fixed "Reward Per Block" (rewardPerBlock p) 2;
          Fixed "Reward Per Day" (rewardPerDay p) 2;
          Fixed "Reward Per Week" (rewardPerWeek p) 2;
          Fixed "Reward Per Month" (rewardPerMonth p) 2;
          Fixed "Reward Per Year" (rewardPerYear p) 2;
          Fixed "Weekly APY" (weeklyAPY p) 4;
          Fixed "Monthly APY" (monthlyAPY p) 2;
          Fixed "Yearly APY" (yearlyAPY p) 2;
          Fixed "User Staked Percentage" (userStakedPct p) 4 ]
      else [])
  ++ [ Fixed "User Daily Reward" (userDailyReward p) 4;
       Fixed "User Weekly Reward" (userWeeklyReward p) 2;
       Fixed "User Monthly Reward" (userMonthlyReward p) 2;
       Fixed "User Yearly Reward" (userYearlyReward p) 0 ].

(** Lines 411-444: the lines in USD, from the two prices read at lines
    409-410. *)
Definition usdLines (verbose : bool) (lpTokenPrice stgPrice : number)
    (p : PoolMetrics) : list line :=
  let lpValue :=
    mul lpTokenPrice (parseFloat_formatUnits (staked p) (decimals p)) in
  let pendingStgValue :=
    mul stgPrice (parseFloat_formatUnits (pendingStg p) STG_DECIMALS) in
  let dailyYield := mul (userDailyReward p) stgPrice in
  let weeklyYield := mul (userWeeklyReward p) stgPrice in
  let monthlyYield := mul (userMonthlyReward p) stgPrice in
  let yearlyYield := mul (userYearlyReward p) stgPrice in
  [ Money "Pending STG Value" pendingStgValue ]
  ++ (if verbose then
        [ Money "LP Value" lpValue;
          Money "Daily Yield" dailyYield;
          Money "Weekly Yield" weeklyYield;
          Money "Monthly Yield" monthlyYield;
          Money "Yearly Yield" yearlyYield ]
      else [])
  ++ [ Money "User Daily Yield" dailyYield;
       Money "User Weekly Yield" weeklyYield;
       Money "User Monthly Yield" monthlyYield;
       Money "User Yearly Yield" yearlyYield;
       Rule ].

(** [tokenPrices[key].usd]: throws when [tokenPrices[key]] is
    [undefined]; a missing [usd] property reads as [undefined] and
    becomes NaN in the arithmetic. *)
Definition usdOf (tokenPrices : gmap string PriceEntry) (key : string)
    : result number :=
  match tokenPrices !! key with
  | Some entry => Ok (ofUndefined (usd entry))
  | None => Throw TypeError
  end.

(** The body of the [forEach] callback: what it printed, and whether it
    returned or threw. *)
Definition reportPool (verbose : bool) (tokenPrices : gmap string PriceEntry)
    (stargateTokenAddress : string) (index : nat) (p : PoolMetrics)
    : list line * result unit :=
  let printed := tokenLines verbose index p in
  match usdOf tokenPrices (token p) with
  | Throw e => (printed, Throw e)
  | Ok lpTokenPrice =>
    match usdOf tokenPrices stargateTokenAddress with
    | Throw e => (printed, Throw e)
    | Ok stgPrice =>
      (printed ++ usdLines verbose lpTokenPrice stgPrice p, Ok ())
    end
  end.

(** [activePoolsWithNames.forEach]: an exception in the callback ends
    the loop; the lines printed so far stay printed. *)
Fixpoint report (verbose : bool) (tokenPrices : gmap string PriceEntry)
    (stargateTokenAddress : string) (index : nat) (pools : list PoolMetrics)
    : list line * result unit :=
  match pools with
  | [] => ([], Ok ())
  | p :: rest =>
    match reportPool verbose tokenPrices stargateTokenAddress index p with
    | (printed, Throw e) => (printed, Throw e)
    | (printed, Ok _) =>
      let '(more, r) :=
        report verbose tokenPrices stargateTokenAddress (S index) rest in
      (printed ++ more, r)
    end
  end.

(** ** The whole run *)

Record Args : Set := mkArgs {
  chain : string;
  address : string;
  verbose : bool
}.

(** The answers of the chain for the queried address: the timestamps of
    the latest block and of the block 100 before it, the reads on the
    staking contract and the reads per pool. *)
Record ChainFacts : Type := mkChainFacts {
  latestTimestamp : Z;
  blockTimestamp : Z;
  stargatePerBlock : Z;
  stargate : string;
  poolLength : nat;
  totalAllocPoint : Z;
  poolInfo : Z -> PoolInfo;
  userInfo : Z -> UserInfo;
  poolReads : Z -> PoolReads
}.

(** Lines 129-334: everything computed before the pool loop. *)
Definition prepare (args : Args) (facts : ChainFacts) (cg : PriceFeed)
    : result (list PoolMetrics * gmap string PriceEntry) :=
  _ ← addressesOf (chain args);
  avg ← avgBlockTime (latestTimestamp facts) (blockTimestamp facts);
  bc ← blockCounts avg;
  let pools := fetchPools (poolLength facts) (poolInfo facts) (userInfo facts) in
  withNames ← activePoolsWithNames (stargatePerBlock facts)
                (totalAllocPoint facts) bc (poolReads facts) (activePools pools);
  prices ← tokenPrices (chain args) cg (stargate facts) (token <$> withNames);
  Ok (withNames, prices).

(** The lines of the pool loop and the way the run ends.  The lines
    printed before the loop (connection banner, block time, price
    table) are left out. *)
Definition main (args : Args) (facts : ChainFacts) (cg : PriceFeed)
    : list line * result unit :=
  match prepare args facts cg with
  | Throw e => ([], Throw e)
  | Ok (withNames, prices) =>
    report (verbose args) prices (stargate facts) 0 withNames
  end.

End Reporter.

Import Reporter.

(* ===================================================================== *)
(** * Concrete runs                                                        *)
(* ===================================================================== *)

Module Scenario.

(** A chain with 12 s blocks: the block counts of [blockCounts 12]. *)
Definition bc12 : BlockCounts := mkBlockCounts 300 7200 50400 201600 2419200.

(** Block counts that give every window 1000 blocks. *)
Definition bc1000 : BlockCounts := mkBlockCounts 1000 1000 1000 1000 1000.

(** 10 STG per block, in raw units. *)
Definition tenSTG : Z := 10 * 10 ^ 18.

(** Pool [n] with the given allocation points and user stake. *)
Definition poolOf (n allocPoint userStaked : Z) : ActivePool :=
  {| pid := n; contract := "0xdf0770dF86a8034b3EFEf0A1Bb3c889B8332FF56";
     allocPoint := allocPoint; lastRewardBlock := 0; accStargatePerShare := 0;
     userStaked := userStaked; rewardDebt := 0 |}.

(** The reads of a pool of a 6-decimals token with the given supply. *)
Definition readsOf (token : string) (lpSupply : Z) : PoolReads :=
  {| r_lpToken := "S*TOKEN"; r_token := token; r_decimals := 6;
     r_underlyingToken := "Token"; r_lpSupply := lpSupply;
     r_pendingStg := 5 * 10 ^ 18 |}.

Definition WETH : string := "0xC02aaA39b223FE8D0A0e5C4F27eAD9083C756Cc2".
Definition STG : string := "0xAf5191B0De278C7286d6C7CC6ab6BB8A73bA2Cd6".

(** Two pools on mainnet, both with allocation points and a user stake of
    10000 tokens out of 100000: pool 0 over WETH, pool 1 over USDT. *)
Definition facts : ChainFacts :=
  {| latestTimestamp := 1700001200;
     blockTimestamp := 1700000000;
     stargatePerBlock := tenSTG;
     stargate := STG;
     poolLength := 2;
     totalAllocPoint := 1000;
     poolInfo := fun _ =>
       mkPoolInfo "0xdf0770dF86a8034b3EFEf0A1Bb3c889B8332FF56" 100 0 0;
     userInfo := fun _ => mkUserInfo (10000 * 10 ^ 6) 0;
     poolReads := fun pid =>
       readsOf (if decide (pid = 0) then WETH
                else "0xdAC17F958D2ee523a2206206994597C13D831ec7")
               (100000 * 10 ^ 6) |}.

(** A price service that answers, but whose answer to the token query
    holds no entry for WETH. *)
Definition cgNoWETH : PriceFeed :=
  {| simpleTokenPrice := fun _ => Ok ∅;
     simplePrice := fun _ =>
       Ok (<["stargate-finance" := mkPriceEntry (Some (Number 2)) None]>
           (<["ethereum" := mkPriceEntry (Some (Number 3000)) None]> ∅)) |}.

(** The price table of that run. *)
Definition pricesNoWETH : gmap string PriceEntry :=
  <[zeroAddress := {| usd := Some (Number 3000); ticker := Some "ETH"%string |}]>
  (<[STG := {| usd := Some (Number 2); ticker := Some "STG"%string |}]>
  (<["0xdAC17F958D2ee523a2206206994597C13D831ec7" :=
       {| usd := Some (Number 1); ticker := Some "USDT"%string |}]>
  (<["0xA0b86991c6218b36c1d19D4a2e9Eb0cE3606eB48" :=
       {| usd := Some (Number 1); ticker := Some "USDC"%string |}]> ∅))).

Definition args : Args :=
  {| chain := "mainnet";
     address := "0x0d4a11d5eeaac28ec3f61d100daf4d40471f1852";
     verbose := true |}.

End Scenario.

(* ===================================================================== *)
(** * Parts of the run, named                                              *)
(* ===================================================================== *)

Module Steps.

(** The chain objects of viem the script connects with. *)
Inductive Chain : Set := mainnet | bsc | polygon.

(** Lines 107-120: the [switch] on [args.chain]; any other name falls back
    to mainnet. *)
Definition chainOf (chain : string) : Chain :=
  if decide (chain = "mainnet") then mainnet
  else if decide (chain = "bsc") then bsc
  else if decide (chain = "polygon") then polygon
  else mainnet.

(** Lines 282-293: the initial value of [tokenPrices], the empty object
    or the answer to the token-price request. *)
Definition tokenPricesResponse (cg : PriceFeed) (a : ContractAddresses)
    (tokens : list string) : result (gmap string PriceEntry) :=
  match tokenPriceRequest (filteredTokens a tokens) with
  | None => Ok ∅
  | Some request => simpleTokenPrice cg request
  end.

(** The [ids] of line 324. *)
Definition priceIds (chain : string) : string :=
  String.concat "," ["stargate-finance"; (nativeTokenOf chain).1].

(** The four entries written at lines 295-334 over the initial value,
    in the order of the writes. *)
Definition withFixedEntries (chain : string) (a : ContractAddresses)
    (stargateTokenAddress : string)
    (pricesResponse tokenPrices : gmap string PriceEntry)
    : gmap string PriceEntry :=
  <[zeroAddress := withTicker (pricesResponse !! (nativeTokenOf chain).1)
                              (nativeTokenOf chain).2]>
  (<[stargateTokenAddress :=
       withTicker (pricesResponse !! "stargate-finance") STG_TICKER]>
  (<[USDT a := {| usd := Some one; ticker := Some "USDT"%string |}]>
  (<[USDC a := {| usd := Some one; ticker := Some "USDC"%string |}]>
     tokenPrices))).

(** The Number that [tokenPrices[key].usd] contributes to the arithmetic
    of lines 411-433 when the entry exists. *)
Definition priceOf (tokenPrices : gmap string PriceEntry) (key : string)
    : number :=
  match tokenPrices !! key with
  | Some entry => ofUndefined (usd entry)
  | None => NaN
  end.

(** Everything the callback of the pool loop prints for one pool when
    neither lookup throws. *)
Definition poolLines (verbose : bool) (tokenPrices : gmap string PriceEntry)
    (stargateTokenAddress : string) (index : nat) (p : PoolMetrics)
    : list line :=
  tokenLines verbose index p ++
  usdLines verbose (priceOf tokenPrices (token p))
           (priceOf tokenPrices stargateTokenAddress) p.

(** A positive normal Number (a mantissa of exactly 53 bits) whose
    binary magnitude, the [k] with [2^(k-1) <= x < 2^k], lies between
    [lo] and [hi]. *)
Definition normalIn (lo hi : Z) (x : number) : Prop :=
  exists m e, x = S754_finite false m e /\
              Zpos (digits2_pos m) = 53 /\ lo <= e + 53 <= hi.

End Steps.

Import Steps.

(* ===================================================================== *)
(** * Properties of the block counts                                       *)
(* ===================================================================== *)

Section BlockTimeFacts.

Lemma bigint_div_pos (a b : Z) :
  0 <= a -> 0 < b -> bigint_div a b = Ok (a / b).
Proof.
  intros Ha Hb. unfold bigint_div.
  destruct (decide (b = 0)) as [->|_]; [lia|].
  by rewrite Z.quot_div_nonneg.
Qed.

Lemma blockCounts_pos (avg : Z) :
  0 < avg ->
  blockCounts avg =
    Ok (mkBlockCounts (3600 / avg) (3600 / avg * 24) (3600 / avg * 24 * 7)
          (3600 / avg * 24 * 7 * 4) (3600 / avg * 24 * 7 * 4 * 12)).
Proof.
  intros Havg. unfold blockCounts.
  by rewrite bigint_div_pos by lia.
Qed.

(** A zero block time is not guarded either: line 143 throws. *)
Lemma blockCounts_zero : blockCounts 0 = Throw RangeError.
Proof. reflexivity. Qed.

(** C5, as stated, fails: 100 blocks that took more than 100 hours give
    an average block time above 3600 s, the integer division of line
    143 yields 0 and every block count is 0, not positive. *)
Lemma blockCounts_slow_chain_not_positive :
  blockCounts 3601 = Ok (mkBlockCounts 0 0 0 0 0) /\
  ~ all_positive (mkBlockCounts 0 0 0 0 0).
Proof.
  split; [reflexivity|].
  unfold all_positive; simpl. lia.
Qed.

(** C5, amended: for a positive average block time the block counts are
    computed, [blocksPerHour] is the floor of [3600 / avgBlockTime],
    the cascade x24, x7, x4, x12 holds, no count is negative, and the
    counts are all positive exactly when the block time is at most
    3600 s; 12 s gives 300, 7200, 50400, 201600 and 2419200. *)
Theorem blockCounts_spec (avg : Z) :
  0 < avg ->
  exists bc,
    blockCounts avg = Ok bc /\
    blocksPerHour bc = 3600 / avg /\
    cascade bc /\
    (0 <= blocksPerHour bc /\ 0 <= blocksPerDay bc /\ 0 <= blocksPerWeek bc /\
     0 <= blocksPerMonth bc /\ 0 <= blocksPerYear bc) /\
    (all_positive bc <-> avg <= 3600) /\
    (avg = 12 -> bc = mkBlockCounts 300 7200 50400 201600 2419200).
Proof.
  intros Havg. eexists. split; [by apply blockCounts_pos|].
  unfold cascade, all_positive; simpl.
  assert (Hq : 0 <= 3600 / avg) by (apply Z.div_pos; lia).
  assert (Hiff : 0 < 3600 / avg <-> avg <= 3600).
  { split; intros H.
    - destruct (decide (avg <= 3600)) as [|Hgt]; [done|].
      rewrite Z.div_small in H by lia. lia.
    - apply Z.div_str_pos. lia. }
  repeat split; try lia.
  intros ->. reflexivity.
Qed.

Lemma blockCounts_spec_witness :
  exists bc,
    blockCounts 12 = Ok bc /\
    blocksPerHour bc = 3600 / 12 /\
    cascade bc /\
    (0 <= blocksPerHour bc /\ 0 <= blocksPerDay bc /\ 0 <= blocksPerWeek bc /\
     0 <= blocksPerMonth bc /\ 0 <= blocksPerYear bc) /\
    (all_positive bc <-> 12 <= 3600) /\
    (12 = 12 -> bc = mkBlockCounts 300 7200 50400 201600 2419200).
Proof. apply (blockCounts_spec 12). lia. Defined.

End BlockTimeFacts.

(* ===================================================================== *)
(** * Properties of the active-pool filter                                 *)
(* ===================================================================== *)

Section SelectorFacts.

Lemma isActive_true (e : PoolEntry) :
  isActive e = true <->
  0 < pi_allocPoint (entryPool e) /\ 0 < ui_amount (entryUser e).
Proof.
  destruct e as [[n p] u]. unfold isActive, entryPool, entryUser; simpl.
  rewrite andb_true_iff, !bool_decide_eq_true. lia.
Qed.

Lemma pid_toActive (e : PoolEntry) : pid (toActive e) = Z.of_nat (entryPid e).
Proof. by destruct e as [[n p] u]. Qed.

Lemma StronglySorted_sublist {A} (R : relation A) (l k : list A) :
  l `sublist_of` k -> StronglySorted R k -> StronglySorted R l.
Proof.
  induction 1 as [|x l k Hsub IH|x l k Hsub IH]; intros Hk.
  - constructor.
  - apply StronglySorted_cons in Hk as [Hx Hk].
    apply StronglySorted_cons. split; [|by apply IH].
    rewrite Forall_forall in Hx |- *.
    intros y Hy. apply Hx. by eapply elem_of_sublist.
  - apply StronglySorted_cons in Hk as [_ Hk]. by apply IH.
Qed.

Lemma StronglySorted_seq (a n : nat) : StronglySorted lt (seq a n).
Proof.
  revert a. induction n as [|n IH]; intros a; simpl; constructor.
  - apply IH.
  - apply Forall_forall. intros x Hx%elem_of_seq. lia.
Qed.

Lemma entryPid_fetchPools n pi ui : entryPid <$> fetchPools n pi ui = seq 0 n.
Proof.
  unfold fetchPools. rewrite <- list_fmap_compose.
  rewrite <- (list_fmap_id (seq 0 n)) at 2. by apply list_fmap_ext.
Qed.

Lemma fetchPools_sorted n pi ui :
  StronglySorted (fun e1 e2 => (entryPid e1 < entryPid e2)%nat)
                 (fetchPools n pi ui).
Proof.
  pose proof (StronglySorted_seq 0 n) as Hs.
  rewrite <- (entryPid_fetchPools n pi ui) in Hs.
  induction (fetchPools n pi ui) as [|e l IH]; [constructor|].
  rewrite fmap_cons in Hs. apply StronglySorted_cons in Hs as [Hhd Htl].
  constructor; [by apply IH|].
  by rewrite Forall_fmap in Hhd.
Qed.

(** C3: the active pools are exactly the fetched pools with
    [allocPoint > 0] and user [amount > 0], each converted by
    [toActive]; they are a subsequence of the fetched pools, so the
    order is kept; and over the ordinals [0 .. poolLength-1] the pool
    ids of the result strictly increase. *)
Theorem activePools_exact_and_stable :
  (forall (pools : list PoolEntry),
     (forall a, a ∈ activePools pools <->
                exists e, e ∈ pools /\ a = toActive e /\
                          0 < pi_allocPoint (entryPool e) /\
                          0 < ui_amount (entryUser e)) /\
     (exists kept, kept `sublist_of` pools /\
                   activePools pools = toActive <$> kept /\
                   forall e, e ∈ pools ->
                     (e ∈ kept <-> 0 < pi_allocPoint (entryPool e) /\
                                   0 < ui_amount (entryUser e)))) /\
  (forall n pi ui,
     StronglySorted Z.lt (pid <$> activePools (fetchPools n pi ui))).
Proof.
  split.
  - intros pools. split.
    + intros a. unfold activePools. rewrite list_elem_of_fmap. split.
      * intros (e & -> & He). apply list_elem_of_filter in He as [Hact He].
        apply isActive_true in Hact. by exists e.
      * intros (e & He & -> & Hact). exists e. split; [done|].
        apply list_elem_of_filter. split; [|done]. by apply isActive_true.
    + exists (filter (fun e => isActive e = true) pools).
      split; [apply sublist_filter|]. split; [done|].
      intros e He. rewrite list_elem_of_filter, isActive_true. tauto.
  - intros n pi ui. unfold activePools. rewrite <- list_fmap_compose.
    apply (StronglySorted_fmap _
             (fun e1 e2 => (entryPid e1 < entryPid e2)%nat)).
    + intros e1 e2 Hlt. simpl. rewrite !pid_toActive. lia.
    + eapply StronglySorted_sublist;
        [apply sublist_filter | apply fetchPools_sorted].
Qed.

End SelectorFacts.

(* ===================================================================== *)
(** * Properties of the pool metrics                                       *)
(* ===================================================================== *)

Section NumberFacts.

Lemma div_zero_not_finite (x : number) (s : bool) :
  isFinite (div x (S754_zero s)) = false.
Proof. by destruct x. Qed.


Lemma mul_not_finite_r (x y : number) :
  isFinite y = false -> isFinite (mul x y) = false.
Proof. by destruct x, y. Qed.

(** A non-finite Number divided or multiplied by a positive finite one
    is unchanged. *)
Lemma div_not_finite_pos (x : number) (m : positive) (e : Z) :
  isFinite x = false -> div x (S754_finite false m e) = x.
Proof. by destruct x as [| [] | |]. Qed.


End NumberFacts.

Section MetricsFacts.

(** [10n ** d] returns for every exponent from 0 up to [2^28], where the
    power has at most [4 * d] bits. *)
Lemma bigint_pow_10_Ok (d : Z) :
  0 <= d < 2 ^ 28 -> bigint_pow 10 d = Ok (10 ^ d).
Proof.
  intros Hd. unfold bigint_pow, maxBigIntBits.
  destruct (decide (d < 0)); [lia|].
  destruct (decide (Z.abs 10 <= 1)); [lia|].
  destruct (decide (2 ^ 30 <= d)); [lia|].
  destruct (decide (Z.log2 (Z.abs (10 ^ d)) < 2 ^ 30)) as [|Hbig]; [done|].
  exfalso. apply Hbig.
  assert (Hpos : 0 < 10 ^ d) by (apply Z.pow_pos_nonneg; lia).
  rewrite Z.abs_eq by lia.
  assert (H16 : 10 ^ d <= 2 ^ (4 * d)).
  { rewrite Z.pow_mul_r by lia. change (2 ^ 4) with 16.
    apply Z.pow_le_mono_l. lia. }
  apply Z.le_lt_trans with (Z.log2 (2 ^ (4 * d))).
  - by apply Z.log2_le_mono.
  - rewrite Z.log2_pow2 by lia. lia.
Qed.

(** It throws, a RangeError, in every other case; from [2^30] on it
    always does. *)
Lemma bigint_pow_10_Throw (d : Z) (e : exn) :
  bigint_pow 10 d = Throw e -> e = RangeError /\ ~ 0 <= d < 2 ^ 28.
Proof.
  intros H. split.
  - unfold bigint_pow in H. repeat case_decide; congruence.
  - intros Hd. by rewrite bigint_pow_10_Ok in H.
Qed.

Lemma bigint_pow_10_too_big (d : Z) :
  d < 0 \/ 2 ^ 30 <= d -> bigint_pow 10 d = Throw RangeError.
Proof.
  intros Hd. unfold bigint_pow, maxBigIntBits.
  destruct (decide (d < 0)); [done|].
  destruct (decide (Z.abs 10 <= 1)); [lia|].
  destruct (decide (2 ^ 30 <= d)); [done|lia].
Qed.

Lemma bigint_pow_Ok (a b v : Z) :
  bigint_pow a b = Ok v -> 0 <= b /\ v = a ^ b.
Proof.
  unfold bigint_pow. repeat case_decide; intros [= <-]; split; lia || done.
Qed.

Lemma stakedTokensOf_Ok (lpSupply decimals : Z) (st : number) :
  stakedTokensOf lpSupply decimals = Ok st ->
  0 <= decimals /\ st = Number (Z.quot lpSupply (10 ^ decimals)).
Proof.
  unfold stakedTokensOf.
  destruct (bigint_pow 10 decimals) as [v|] eqn:Hpow; [|done].
  apply bigint_pow_Ok in Hpow as [Hd ->]. simpl. unfold bigint_div.
  destruct (decide (10 ^ decimals = 0)); [done|]. simpl.
  intros [= <-]. split; [lia|done].
Qed.

Lemma stakedTokensOf_total (lpSupply decimals : Z) :
  0 <= decimals < 2 ^ 28 ->
  stakedTokensOf lpSupply decimals = Ok (Number (Z.quot lpSupply (10 ^ decimals))).
Proof.
  intros Hd. unfold stakedTokensOf. rewrite bigint_pow_10_Ok by done.
  simpl. unfold bigint_div.
  destruct (decide (10 ^ decimals = 0)) as [H0|]; [|done].
  pose proof (Z.pow_pos_nonneg 10 decimals). lia.
Qed.

Lemma poolMetrics_Ok stgPerBlock totalAllocPoint bc p r m :
  poolMetrics stgPerBlock totalAllocPoint bc p r = Ok m ->
  exists st,
    stakedTokensOf (r_lpSupply r) (r_decimals r) = Ok st /\
    m = metricsWith stgPerBlock totalAllocPoint bc p r st.
Proof.
  unfold poolMetrics.
  destruct (stakedTokensOf (r_lpSupply r) (r_decimals r)) as [st|e]; [|done].
  simpl. intros [= <-]. by exists st.
Qed.

Lemma poolMetrics_total stgPerBlock totalAllocPoint bc p r :
  0 <= r_decimals r < 2 ^ 28 ->
  poolMetrics stgPerBlock totalAllocPoint bc p r =
    Ok (metricsWith stgPerBlock totalAllocPoint bc p r
          (Number (Z.quot (r_lpSupply r) (10 ^ r_decimals r)))).
Proof.
  intros Hd. unfold poolMetrics.
  by rewrite stakedTokensOf_total.
Qed.

End MetricsFacts.

(** Read the fields of the object [poolMetrics] returned. *)
Ltac fields :=
  cbn [metricsWith pool decimals staked lpToken token pendingStg
       underlyingToken rewardPerBlock rewardPerDay rewardPerWeek
       rewardPerMonth rewardPerYear dailyAPY weeklyAPY monthlyAPY yearlyAPY
       userStakedPct userDailyReward userWeeklyReward userMonthlyReward
       userYearlyReward] in *.

Section RewardFacts.

Import Scenario.

(** 10 STG per block in raw units reads back as the Number 10, 1.5 STG
    as 3/2 and 0.1 STG as the double nearest to one tenth. *)
Example stgPerBlockF_examples :
  stgPerBlockF tenSTG = Number 10 /\
  stgPerBlockF (15 * 10 ^ 17) = div (Number 3) (Number 2) /\
  stgPerBlockF (10 ^ 17) = S754_finite false 7205759403792794 (-56).
Proof. repeat split; vm_compute; reflexivity. Qed.



(** A Number is within the tolerance of itself exactly when it is
    finite: the difference of an infinity or of NaN with itself is NaN,
    which compares false. *)
Lemma withinTolerance_refl (x : number) : withinTolerance x x = isFinite x.
Proof.
  destruct x as [[]|[]| |s m e]; try reflexivity.
  unfold withinTolerance, SFsub. rewrite Z.sub_diag. reflexivity.
Qed.

(** C2, as stated, fails: a pool of 1.5 tokens (6 decimals) earning
    50400 STG per week has a weekly APY of 5040000 % in the code, which
    divides by the whole-token count 1; over the staked amount in decimal
    units, 1.5, it would be 3360000 %, far outside the tolerance.  And
    where the APY is not finite (a pool of half a token) the yearly
    figure is the same +Infinity as the weekly one times 52, yet the
    comparison within the tolerance is false. *)
Lemma weeklyAPY_not_over_decimal_amount :
  (exists m,
     poolMetrics tenSTG 1000 bc12 (poolOf 0 100 1100000) (readsOf WETH 1500000)
       = Ok m /\
     rewardPerWeek m = Number 50400 /\
     parseFloat_formatUnits 1500000 6 = div (Number 3) (Number 2) /\
     weeklyAPY_spec (rewardPerWeek m) 1500000 6 = Number 3360000 /\
     weeklyAPY m = Number 5040000 /\
     withinTolerance (weeklyAPY m) (weeklyAPY_spec (rewardPerWeek m) 1500000 6)
       = false) /\
  (exists m,
     poolMetrics tenSTG 1000 bc12 (poolOf 0 100 500000) (readsOf WETH 500000)
       = Ok m /\
     yearlyAPY m = pInf /\
     mul (weeklyAPY m) (Number 52) = pInf /\
     withinTolerance (yearlyAPY m) (mul (weeklyAPY m) (Number 52)) = false).
Proof.
  split; eexists; (split; [vm_compute; reflexivity|]);
    repeat split; vm_compute; reflexivity.
Qed.

(** C2, amended: the weekly APY is [rewardPerWeek * 100 / stakedTokens]
    where [stakedTokens] is the whole-token count
    [Number(lpSupply / 10n ** decimals)] of line 226 (the BigInt quotient,
    not the decimal amount), and the other three horizons are that same
    Number divided by 7, times 4 and times 52.  The equalities are exact,
    as Numbers; each figure is within the tolerance 1e-9 of its formula
    exactly when it is finite. *)
Theorem apy_scalar_multiples stgPerBlock totalAllocPoint bc p r m :
  poolMetrics stgPerBlock totalAllocPoint bc p r = Ok m ->
  weeklyAPY m =
    div (mul (rewardPerWeek m) (Number 100))
        (Number (Z.quot (r_lpSupply r) (10 ^ r_decimals r))) /\
  dailyAPY m = div (weeklyAPY m) (Number 7) /\
  monthlyAPY m = mul (weeklyAPY m) (Number 4) /\
  yearlyAPY m = mul (weeklyAPY m) (Number 52) /\
  withinTolerance (dailyAPY m) (div (weeklyAPY m) (Number 7))
    = isFinite (dailyAPY m) /\
  withinTolerance (monthlyAPY m) (mul (weeklyAPY m) (Number 4))
    = isFinite (monthlyAPY m) /\
  withinTolerance (yearlyAPY m) (mul (weeklyAPY m) (Number 52))
    = isFinite (yearlyAPY m).
Proof.
  intros Hm. apply poolMetrics_Ok in Hm as (st & Hst & ->).
  apply stakedTokensOf_Ok in Hst as [_ ->]. fields.
  do 4 (split; [reflexivity|]).
  repeat split; apply withinTolerance_refl.
Qed.

Lemma apy_scalar_multiples_witness :
  let m := metricsWith tenSTG 1000 bc12 (poolOf 0 100 (10000 * 10 ^ 6))
             (readsOf WETH (100000 * 10 ^ 6)) (Number 100000) in
  weeklyAPY m =
    div (mul (rewardPerWeek m) (Number 100))
        (Number (Z.quot (100000 * 10 ^ 6) (10 ^ 6))) /\
  dailyAPY m = div (weeklyAPY m) (Number 7) /\
  monthlyAPY m = mul (weeklyAPY m) (Number 4) /\
  yearlyAPY m = mul (weeklyAPY m) (Number 52) /\
  withinTolerance (dailyAPY m) (div (weeklyAPY m) (Number 7))
    = isFinite (dailyAPY m) /\
  withinTolerance (monthlyAPY m) (mul (weeklyAPY m) (Number 4))
    = isFinite (monthlyAPY m) /\
  withinTolerance (yearlyAPY m) (mul (weeklyAPY m) (Number 52))
    = isFinite (yearlyAPY m).
Proof.
  apply (apy_scalar_multiples tenSTG 1000 bc12
           (poolOf 0 100 (10000 * 10 ^ 6)) (readsOf WETH (100000 * 10 ^ 6))).
  vm_compute. reflexivity.
Defined.

(** The scenario of the specification: 50400 STG per week on 100000
    staked tokens is 50.4 % per week and 7.2 % per day. *)
Example apy_scenario :
  poolMetrics tenSTG 1000 bc12 (poolOf 0 100 (10000 * 10 ^ 6))
              (readsOf WETH (100000 * 10 ^ 6))
  = Ok (metricsWith tenSTG 1000 bc12 (poolOf 0 100 (10000 * 10 ^ 6))
          (readsOf WETH (100000 * 10 ^ 6)) (Number 100000)) /\
  weeklyAPYOf (Number 50400) (Number 100000) = parseFloat_formatUnits 504 1 /\
  div (weeklyAPYOf (Number 50400) (Number 100000)) n7
    = parseFloat_formatUnits 72 1.
Proof. repeat split; vm_compute; reflexivity. Qed.

End RewardFacts.

Section UserShareFacts.

Import Scenario.

(** C4, as stated, fails: a user holding 1.1 tokens of a pool of 1.5
    tokens (6 decimals) has a share of 73.33 % in the code, which divides
    the raw amounts.  Over the denominator of the APY computation (the
    whole-token count, here 1) the share would be [1.1 * 100] % with the
    user's amount as a decimal and 100 % with it as whole tokens; and with both
    amounts as decimals, 1.1 and 1.5, the quotient is the next Number
    above the one the code computes. *)
Lemma userStakedPct_not_in_decimal_units :
  exists m,
    poolMetrics tenSTG 1000 bc12 (poolOf 0 100 1100000) (readsOf WETH 1500000)
      = Ok m /\
    userStakedPct m = div (Number 220) (Number 3) /\
    stakedTokensOf 1500000 6 = Ok (Number 1) /\
    userStakedPct_spec_exact 1100000 1500000 6
      = Ok (mul (parseFloat_formatUnits 11 1) (Number 100)) /\
    userStakedPct_spec_whole 1100000 1500000 6 = Ok (Number 100) /\
    userStakedPct_spec_exact 1100000 1500000 6 <> Ok (userStakedPct m) /\
    userStakedPct_spec_whole 1100000 1500000 6 <> Ok (userStakedPct m) /\
    userStakedPct_spec_decimal 1100000 1500000 6 <> userStakedPct m.
Proof.
  eexists. split; [vm_compute; reflexivity|].
  repeat split; try (vm_compute; reflexivity); vm_compute; discriminate.
Qed.

(** C4, amended: the user's share is
    [Number(userStaked) * 100 / Number(lpSupply)], both amounts in raw
    integer units, each converted to a Number; for each of the four
    windows the user's reward is the pool's reward of that window times
    the share, divided by 100; a pool reward of 1000 with a share of 25
    gives 250, for each window on its own. *)
Theorem user_share_of_rewards stgPerBlock totalAllocPoint bc p r m :
  poolMetrics stgPerBlock totalAllocPoint bc p r = Ok m ->
  userStakedPct m =
    div (mul (Number (userStaked p)) (Number 100)) (Number (r_lpSupply r)) /\
  userDailyReward m = div (mul (rewardPerDay m) (userStakedPct m)) (Number 100) /\
  userWeeklyReward m = div (mul (rewardPerWeek m) (userStakedPct m)) (Number 100) /\
  userMonthlyReward m = div (mul (rewardPerMonth m) (userStakedPct m)) (Number 100) /\
  userYearlyReward m = div (mul (rewardPerYear m) (userStakedPct m)) (Number 100) /\
  (userStakedPct m = Number 25 ->
     (rewardPerDay m = Number 1000 -> userDailyReward m = Number 250) /\
     (rewardPerWeek m = Number 1000 -> userWeeklyReward m = Number 250) /\
     (rewardPerMonth m = Number 1000 -> userMonthlyReward m = Number 250) /\
     (rewardPerYear m = Number 1000 -> userYearlyReward m = Number 250)).
Proof.
  intros Hm. apply poolMetrics_Ok in Hm as (st & _ & ->). fields.
  do 5 (split; [reflexivity|]).
  unfold userReward. intros ->.
  repeat split; intros ->; vm_compute; reflexivity.
Qed.

Lemma user_share_of_rewards_witness :
  let m := metricsWith tenSTG 1000 bc1000 (poolOf 0 100 25)
             (readsOf WETH 100) pZero in
  poolMetrics tenSTG 1000 bc1000 (poolOf 0 100 25) (readsOf WETH 100) = Ok m /\
  userStakedPct m = Number 25 /\
  rewardPerDay m = Number 1000 /\
  userDailyReward m = Number 250 /\
  userWeeklyReward m = Number 250 /\
  userMonthlyReward m = Number 250 /\
  userYearlyReward m = Number 250.
Proof.
  intros m.
  assert (Hm : poolMetrics tenSTG 1000 bc1000 (poolOf 0 100 25)
                 (readsOf WETH 100) = Ok m) by (vm_compute; reflexivity).
  assert (Hr : forall bpw, bpw = 1000 ->
            rewardPer (poolRewardPerBlock tenSTG 100 1000) bpw = Number 1000)
    by (intros ? ->; vm_compute; reflexivity).
  destruct (user_share_of_rewards _ _ _ _ _ _ Hm) as (Hpct & _ & _ & _ & _ & Hex).
  destruct Hex as (Hd & Hw & Hmo & Hy); [vm_compute; reflexivity|].
  split; [exact Hm|]. split; [vm_compute; reflexivity|].
  split; [apply Hr; reflexivity|].
  split; [apply Hd, Hr; reflexivity|].
  split; [apply Hw, Hr; reflexivity|].
  split; [apply Hmo, Hr; reflexivity|].
  apply Hy, Hr; reflexivity.
Defined.

(** The scenario of the specification: 10000 staked out of 100000 is a
    share of 10 %, worth 5040 STG per week and 720 STG per day. *)
Example user_share_scenario :
  userStakedPctOf (10000 * 10 ^ 6) (100000 * 10 ^ 6) = Number 10 /\
  userReward (Number 50400) (Number 10) = Number 5040 /\
  userReward (Number 7200) (Number 10) = Number 720 /\
  userReward (Number 1000) (Number 25) = Number 250.
Proof. repeat split; vm_compute; reflexivity. Qed.

End UserShareFacts.

Section DegenerateFacts.

Import Scenario.



End DegenerateFacts.

Section UnguardedFacts.

Import Scenario.







End UnguardedFacts.

(* ===================================================================== *)
(** * Properties of the price table                                        *)
(* ===================================================================== *)

(** Split an equation [(x ← r; k) = Ok v] on the outcome of [r]. *)
Ltac bind_Ok H :=
  unfold mbind, result_bind in H;
  match type of H with
  | match ?r with Ok _ => _ | Throw _ => _ end = Ok _ =>
      let E := fresh "E" in destruct r eqn:E; [|discriminate H]
  end.

Section ValuationFacts.

Import Scenario.

Lemma addressesOf_Ok (chain : string) (a : ContractAddresses) :
  addressesOf chain = Ok a <-> CONTRACT_ADDRESSES_MAP !! chain = Some a.
Proof.
  unfold addressesOf. destruct (CONTRACT_ADDRESSES_MAP !! chain); split;
    intros; simplify_eq; done.
Qed.

(** The three rows of the table. *)
Lemma CONTRACT_ADDRESSES_MAP_lookup (chain : string) (a : ContractAddresses) :
  CONTRACT_ADDRESSES_MAP !! chain = Some a ->
  (chain = "mainnet" /\
   USDC a = "0xA0b86991c6218b36c1d19D4a2e9Eb0cE3606eB48" /\
   USDT a = "0xdAC17F958D2ee523a2206206994597C13D831ec7") \/
  (chain = "bsc" /\
   USDC a = "0x8AC76a51cc950d9822D68b83fE1Ad97B32Cd580d" /\
   USDT a = "0x55d398326f99059fF775485246999027B3197955") \/
  (chain = "polygon" /\
   USDC a = "0x2791Bca1f2de4661ED88A30C99A7a9449Aa84174" /\
   USDT a = "0xc2132D05D31c914a87C6611C10748AEb04B58e8F").
Proof.
  unfold CONTRACT_ADDRESSES_MAP. rewrite !lookup_insert, lookup_empty.
  repeat case_decide; intros; simplify_eq; auto.
Qed.

(** In every row the two stablecoins differ from each other and from the
    zero address. *)
Lemma stablecoins_distinct (chain : string) (a : ContractAddresses) :
  CONTRACT_ADDRESSES_MAP !! chain = Some a ->
  USDC a <> USDT a /\ zeroAddress <> USDC a /\ zeroAddress <> USDT a.
Proof.
  intros H. apply CONTRACT_ADDRESSES_MAP_lookup in H.
  destruct H as [(_ & -> & ->)|[(_ & -> & ->)|(_ & -> & ->)]];
    repeat split; discriminate.
Qed.

Lemma filteredTokens_spec (a : ContractAddresses) (tokens : list string) (t : string) :
  t ∈ filteredTokens a tokens <-> t ∈ tokens /\ t <> USDC a /\ t <> USDT a.
Proof.
  unfold filteredTokens, stableCoins. rewrite list_elem_of_filter.
  rewrite !not_elem_of_cons. split.
  - intros ((? & ? & _) & ?). auto.
  - intros (? & ? & ?). repeat split; auto. apply not_elem_of_nil.
Qed.

(** The request carries the filtered tokens, joined by commas. *)
Lemma tokenPriceRequest_Some (l : list string) (request : TokenPriceRequest) :
  tokenPriceRequest l = Some request ->
  l <> [] /\ contract_addresses request = String.concat "," l.
Proof.
  unfold tokenPriceRequest. destruct l as [|x [|y l]]; simpl; [done| |].
  - intros [= <-]. done.
  - intros [= <-]. done.
Qed.

Lemma tokenPriceRequest_None (l : list string) :
  tokenPriceRequest l = None <-> l = [].
Proof. unfold tokenPriceRequest. by destruct l. Qed.

(** A request, when one is sent, is for the platform "ethereum" in
    "usd", with the addresses joined by commas. *)
Lemma tokenPriceRequest_cons (t : string) (l : list string) :
  tokenPriceRequest (t :: l) =
    Some {| id := "ethereum";
            contract_addresses := String.concat "," (t :: l);
            vs_currencies := "usd" |}.
Proof. by destruct l. Qed.

(** The filter of lines 279-281, with the two addresses spelled out. *)
Lemma filteredTokens_filter (a : ContractAddresses) (tokens : list string) :
  filteredTokens a tokens =
    filter (fun token => token <> USDC a /\ token <> USDT a) tokens.
Proof.
  unfold filteredTokens, stableCoins. apply list_filter_iff. intros t.
  rewrite !not_elem_of_cons. pose proof (not_elem_of_nil t). tauto.
Qed.

Lemma tokenPrices_known chain a cg stg tokens :
  CONTRACT_ADDRESSES_MAP !! chain = Some a ->
  tokenPrices chain cg stg tokens =
    match tokenPricesResponse cg a tokens with
    | Throw e => Throw e
    | Ok response =>
      match simplePrice cg (priceIds chain) with
      | Throw e => Throw e
      | Ok pricesResponse =>
          Ok (withFixedEntries chain a stg pricesResponse response)
      end
    end.
Proof.
  intros Ha. unfold tokenPrices, tokenPricesResponse, priceIds, withFixedEntries.
  apply addressesOf_Ok in Ha. rewrite Ha.
  unfold mbind at 1, result_bind at 1.
  destruct (nativeTokenOf chain) as [nativeToken nativeTicker].
  reflexivity.
Qed.

Lemma withFixedEntries_lookup chain a stg pr response (k : string) :
  withFixedEntries chain a stg pr response !! k =
    if decide (zeroAddress = k) then
      Some (withTicker (pr !! (nativeTokenOf chain).1) (nativeTokenOf chain).2)
    else if decide (stg = k) then
      Some (withTicker (pr !! "stargate-finance") STG_TICKER)
    else if decide (USDT a = k) then
      Some {| usd := Some one; ticker := Some "USDT"%string |}
    else if decide (USDC a = k) then
      Some {| usd := Some one; ticker := Some "USDC"%string |}
    else response !! k.
Proof. unfold withFixedEntries. by rewrite !lookup_insert. Qed.

(** C6, as stated, fails: on mainnet, when the reward token address read
    from the staking contract is the USDC address, the entry written for
    the reward token (line 327) replaces the stablecoin entry written
    before it (line 295): the table holds the price of stargate-finance,
    here 2, under the USDC address. *)
Lemma reward_token_entry_replaces_stablecoin_entry :
  USDC <$> CONTRACT_ADDRESSES_MAP !! "mainnet"
    = Some "0xA0b86991c6218b36c1d19D4a2e9Eb0cE3606eB48"%string /\
  exists prices,
    tokenPrices "mainnet" cgNoWETH "0xA0b86991c6218b36c1d19D4a2e9Eb0cE3606eB48"
      [WETH] = Ok prices /\
    prices !! "0xA0b86991c6218b36c1d19D4a2e9Eb0cE3606eB48"
      = Some {| usd := Some (Number 2); ticker := Some "STG"%string |} /\
    prices !! "0xdAC17F958D2ee523a2206206994597C13D831ec7"
      = Some {| usd := Some (Number 1); ticker := Some "USDT"%string |}.
Proof.
  split; [vm_compute; reflexivity|].
  eexists. split; [reflexivity|].
  split; vm_compute; reflexivity.
Qed.

(** C6, amended: on each chain of the table the only token-price request
    the engine sends is the one for the pool tokens other than the USDC
    and the USDT address of the chain, in the order of the pools (none is
    sent when no such token is left), and the table is the answer to that
    request with the four fixed entries written over it; so whatever the
    price service answers, also when its answer holds no entry for a
    stablecoin or holds another price for it, a table that is built holds
    the price 1.0 for USDC and for USDT, provided the reward token
    address is not one of these two addresses. *)
Theorem stablecoins_priced_at_one chain a cg stargateTokenAddress tokens :
  CONTRACT_ADDRESSES_MAP !! chain = Some a ->
  let query := filter (fun token => token <> USDC a /\ token <> USDT a) tokens in
  (USDC a ∉ query) /\ (USDT a ∉ query) /\
  tokenPrices chain cg stargateTokenAddress tokens =
    (response ← (if decide (query = []) then Ok ∅
                 else simpleTokenPrice cg
                        {| id := "ethereum";
                           contract_addresses := String.concat "," query;
                           vs_currencies := "usd" |});
     pricesResponse ← simplePrice cg (priceIds chain);
     Ok (withFixedEntries chain a stargateTokenAddress pricesResponse response)) /\
  (forall prices,
     tokenPrices chain cg stargateTokenAddress tokens = Ok prices ->
     stargateTokenAddress <> USDC a ->
     stargateTokenAddress <> USDT a ->
     prices !! USDC a
       = Some {| usd := Some (Number 1); ticker := Some "USDC"%string |} /\
     prices !! USDT a
       = Some {| usd := Some (Number 1); ticker := Some "USDT"%string |}).
Proof.
  intros Ha query.
  destruct (stablecoins_distinct _ _ Ha) as (Hne & Hz1 & Hz2).
  assert (Hknown := tokenPrices_known chain a cg stargateTokenAddress tokens Ha).
  unfold tokenPricesResponse in Hknown.
  rewrite filteredTokens_filter in Hknown. fold query in Hknown.
  split; [|split; [|split]].
  - unfold query. rewrite list_elem_of_filter. tauto.
  - unfold query. rewrite list_elem_of_filter. tauto.
  - rewrite Hknown. destruct query as [|t l].
    + reflexivity.
    + rewrite tokenPriceRequest_cons. reflexivity.
  - intros prices Hp Hs1 Hs2. rewrite Hknown in Hp.
    destruct (match tokenPriceRequest query with
              | Some request => simpleTokenPrice cg request
              | None => Ok ∅
              end) as [response|]; [|discriminate].
    destruct (simplePrice cg (priceIds chain)) as [pr|]; [|discriminate].
    injection Hp as <-. rewrite !withFixedEntries_lookup.
    repeat case_decide; try congruence; done.
Qed.

Lemma stablecoins_priced_at_one_witness :
  tokenPrices "mainnet" cgNoWETH STG
    [WETH; "0xdAC17F958D2ee523a2206206994597C13D831ec7"] =
    (response ← simpleTokenPrice cgNoWETH
                  {| id := "ethereum"; contract_addresses := WETH;
                     vs_currencies := "usd" |};
     pricesResponse ← simplePrice cgNoWETH "stargate-finance,ethereum";
     Ok (withFixedEntries "mainnet"
           {| LP_STAKING := "0xB0D502E938ed5f4df2E681fE6E419ff29631d62b";
              USDC := "0xA0b86991c6218b36c1d19D4a2e9Eb0cE3606eB48";
              USDT := "0xdAC17F958D2ee523a2206206994597C13D831ec7" |}
           STG pricesResponse response)) /\
  pricesNoWETH !! "0xA0b86991c6218b36c1d19D4a2e9Eb0cE3606eB48" =
    Some {| usd := Some (Number 1); ticker := Some "USDC"%string |} /\
  pricesNoWETH !! "0xdAC17F958D2ee523a2206206994597C13D831ec7" =
    Some {| usd := Some (Number 1); ticker := Some "USDT"%string |}.
Proof.
  pose (a := {| LP_STAKING := "0xB0D502E938ed5f4df2E681fE6E419ff29631d62b";
                USDC := "0xA0b86991c6218b36c1d19D4a2e9Eb0cE3606eB48";
                USDT := "0xdAC17F958D2ee523a2206206994597C13D831ec7" |}).
  assert (Ha : CONTRACT_ADDRESSES_MAP !! "mainnet" = Some a)
    by (vm_compute; reflexivity).
  destruct (stablecoins_priced_at_one "mainnet" a cgNoWETH STG
              [WETH; "0xdAC17F958D2ee523a2206206994597C13D831ec7"] Ha)
    as (_ & _ & Hsent & Hone).
  split; [exact Hsent|].
  apply (Hone pricesNoWETH); [reflexivity | discriminate | discriminate].
Defined.

End ValuationFacts.

(* ===================================================================== *)
(** * Properties of the report                                             *)
(* ===================================================================== *)

Section ReporterFacts.

Import Scenario.

Lemma usdOf_Some (prices : gmap string PriceEntry) (key : string) :
  is_Some (prices !! key) -> exists v, usdOf prices key = Ok v.
Proof. intros [entry H]. unfold usdOf. rewrite H. eauto. Qed.

Lemma usdOf_None (prices : gmap string PriceEntry) (key : string) :
  prices !! key = None -> usdOf prices key = Throw TypeError.
Proof. intros H. unfold usdOf. by rewrite H. Qed.

(** A pool whose token and the reward token are both in the table is
    reported in full. *)
Lemma reportPool_priced verbose prices stg index p :
  is_Some (prices !! token p) -> is_Some (prices !! stg) ->
  exists lpTokenPrice stgPrice,
    reportPool verbose prices stg index p =
      (tokenLines verbose index p ++ usdLines verbose lpTokenPrice stgPrice p,
       Ok ()).
Proof.
  intros [v1 H1]%usdOf_Some [v2 H2]%usdOf_Some.
  exists v1, v2. unfold reportPool. by rewrite H1, H2.
Qed.

(** A pool whose token is not in the table: the lines in token units,
    then the exception of line 409. *)
Lemma reportPool_unpriced verbose prices stg index p :
  prices !! token p = None ->
  reportPool verbose prices stg index p =
    (tokenLines verbose index p, Throw TypeError).
Proof. intros H. unfold reportPool. by rewrite usdOf_None. Qed.

Lemma report_stops verbose prices stg before :
  forall index p after,
    Forall (fun q => is_Some (prices !! token q)) before ->
    is_Some (prices !! stg) ->
    prices !! token p = None ->
    exists printed,
      report verbose prices stg index before = (printed, Ok ()) /\
      report verbose prices stg index (before ++ p :: after) =
        (printed ++ tokenLines verbose (index + length before) p,
         Throw TypeError).
Proof.
  induction before as [|q before IH]; intros index p after Hall Hstg Hp.
  - exists []. split; [reflexivity|]. simpl.
    rewrite reportPool_unpriced by done. by rewrite Nat.add_0_r.
  - apply Forall_cons in Hall as [Hq Hall].
    destruct (reportPool_priced verbose prices stg index q Hq Hstg)
      as (v1 & v2 & Hrq).
    destruct (IH (S index) p after Hall Hstg Hp) as (printed & Hb & Hfull).
    eexists. simpl. rewrite Hrq, Hb, Hfull. split; [reflexivity|].
    replace (index + S (length before))%nat with (S index + length before)%nat
      by lia.
    by rewrite <- !app_assoc.
Qed.

(** The table always holds an entry for the reward token. *)
Lemma tokenPrices_stargate chain cg stg tokens prices :
  tokenPrices chain cg stg tokens = Ok prices -> is_Some (prices !! stg).
Proof.
  intros Hp. unfold tokenPrices in Hp.
  bind_Ok Hp. bind_Ok Hp.
  destruct (nativeTokenOf chain) as [nativeToken nativeTicker].
  bind_Ok Hp. injection Hp as <-.
  rewrite lookup_insert. case_decide; [by eexists|].
  rewrite lookup_insert_eq. by eexists.
Qed.

Lemma prepare_Ok args facts cg withNames prices :
  prepare args facts cg = Ok (withNames, prices) ->
  tokenPrices (chain args) cg (stargate facts) (token <$> withNames) = Ok prices.
Proof.
  intros Hp. unfold prepare in Hp.
  do 5 bind_Ok Hp. by injection Hp as <- <-.
Qed.

(** C7, as stated, fails: in a run with two active pools where the price
    service answers without an entry for the first pool's token, the
    lines of that pool in token units are printed, then line 409 throws:
    the run ends with a TypeError, no USD line of that pool is printed,
    as unavailable or otherwise, and the second pool is not reported. *)
Lemma missing_price_aborts_run :
  let m0 := metricsWith tenSTG 1000 bc12 (poolOf 0 100 (10000 * 10 ^ 6))
              (readsOf WETH (100000 * 10 ^ 6)) (Number 100000) in
  let m1 := metricsWith tenSTG 1000 bc12 (poolOf 1 100 (10000 * 10 ^ 6))
              (readsOf "0xdAC17F958D2ee523a2206206994597C13D831ec7"
                       (100000 * 10 ^ 6)) (Number 100000) in
  prepare args facts cgNoWETH = Ok ([m0; m1], pricesNoWETH) /\
  token m0 = WETH /\
  pricesNoWETH !! WETH = None /\
  main args facts cgNoWETH = (tokenLines true 0 m0, Throw TypeError) /\
  snd (main args facts cgNoWETH) <> Ok () /\
  Header 1 ∉ fst (main args facts cgNoWETH).
Proof.
  intros m0 m1.
  assert (Hprep : prepare args facts cgNoWETH = Ok ([m0; m1], pricesNoWETH))
    by reflexivity.
  assert (Hmain : main args facts cgNoWETH = (tokenLines true 0 m0, Throw TypeError)).
  { unfold main. rewrite Hprep. vm_compute. reflexivity. }
  split; [exact Hprep|]. split; [reflexivity|].
  split; [vm_compute; reflexivity|]. split; [exact Hmain|].
  rewrite Hmain. split; [discriminate|].
  simpl. rewrite list_elem_of_In. vm_compute.
  intros H. repeat (destruct H as [H|H]; [discriminate H|]). exact H.
Qed.

(** C7, amended: when the price table has no entry for the token of an
    active pool (and has one for every pool before it), the pools before
    it are reported in full, the lines of that pool in token units are
    printed, and the run ends there with a TypeError: no USD line of that
    pool is printed and no pool after it is reported. *)
Theorem missing_price_stops_report args facts cg before p after prices :
  prepare args facts cg = Ok (before ++ p :: after, prices) ->
  Forall (fun q => is_Some (prices !! token q)) before ->
  prices !! token p = None ->
  exists printed,
    report (verbose args) prices (stargate facts) 0 before = (printed, Ok ()) /\
    main args facts cg =
      (printed ++ tokenLines (verbose args) (length before) p, Throw TypeError).
Proof.
  intros Hprep Hbefore Hp.
  pose proof (tokenPrices_stargate _ _ _ _ _ (prepare_Ok _ _ _ _ _ Hprep)) as Hstg.
  destruct (report_stops (verbose args) prices (stargate facts) before 0 p after
              Hbefore Hstg Hp) as (printed & Hb & Hfull).
  exists printed. split; [exact Hb|].
  unfold main. rewrite Hprep. exact Hfull.
Qed.

Lemma missing_price_stops_report_witness :
  exists printed,
    report true pricesNoWETH STG 0 [] = (printed, Ok ()) /\
    main args facts cgNoWETH =
      (printed ++
       tokenLines true 0
         (metricsWith tenSTG 1000 bc12 (poolOf 0 100 (10000 * 10 ^ 6))
            (readsOf WETH (100000 * 10 ^ 6)) (Number 100000)),
       Throw TypeError).
Proof.
  apply (missing_price_stops_report args facts cgNoWETH []
           (metricsWith tenSTG 1000 bc12 (poolOf 0 100 (10000 * 10 ^ 6))
              (readsOf WETH (100000 * 10 ^ 6)) (Number 100000))
           [metricsWith tenSTG 1000 bc12 (poolOf 1 100 (10000 * 10 ^ 6))
              (readsOf "0xdAC17F958D2ee523a2206206994597C13D831ec7"
                       (100000 * 10 ^ 6)) (Number 100000)]
           pricesNoWETH).
  - reflexivity.
  - constructor.
  - vm_compute. reflexivity.
Defined.

End ReporterFacts.

(* ===================================================================== *)
(** * Further properties: block time                                       *)
(* ===================================================================== *)

Section BlockTimeMore.

Lemma bigint_div_Ok (a b q : Z) :
  bigint_div a b = Ok q <-> b <> 0 /\ q = Z.quot a b.
Proof.
  unfold bigint_div. destruct (decide (b = 0)); split.
  - discriminate.
  - intros [? _]. contradiction.
  - intros [= <-]. done.
  - intros [_ ->]. done.
Qed.

Lemma bigint_div_Throw (a b : Z) (e : exn) :
  bigint_div a b = Throw e <-> b = 0 /\ e = RangeError.
Proof.
  unfold bigint_div. destruct (decide (b = 0)); split.
  - intros [= <-]. done.
  - intros [_ ->]. done.
  - discriminate.
  - intros [? _]. contradiction.
Qed.

Lemma blockCounts_Ok (avg : Z) (bc : BlockCounts) :
  blockCounts avg = Ok bc ->
  avg <> 0 /\
  bc = mkBlockCounts (Z.quot 3600 avg) (Z.quot 3600 avg * 24)
         (Z.quot 3600 avg * 24 * 7) (Z.quot 3600 avg * 24 * 7 * 4)
         (Z.quot 3600 avg * 24 * 7 * 4 * 12).
Proof.
  unfold blockCounts, bigint_div.
  destruct (decide (avg = 0)); [discriminate|].
  simpl. intros [= <-]. done.
Qed.

Lemma blockCounts_Throw (avg : Z) (e : exn) :
  blockCounts avg = Throw e <-> avg = 0 /\ e = RangeError.
Proof.
  unfold blockCounts, bigint_div.
  destruct (decide (avg = 0)); simpl; split.
  - intros [= <-]. done.
  - intros [_ ->]. done.
  - discriminate.
  - intros [? _]. contradiction.
Qed.

(** X1: Line 143 is the only statement of the block counts that can throw,
    and it throws exactly for an average block time of 0: a RangeError
    (BigInt division by zero).  For every other block time, negative ones
    included, the five counts are computed. *)
Theorem blockCounts_throws_iff_zero :
  (forall avg e, blockCounts avg = Throw e <-> avg = 0 /\ e = RangeError) /\
  (forall avg, avg <> 0 <-> exists bc, blockCounts avg = Ok bc).
Proof.
  split; [apply blockCounts_Throw|].
  intros avg. split.
  - intros Hne. destruct (blockCounts avg) as [bc|e] eqn:Hbc; [eauto|].
    apply blockCounts_Throw in Hbc as [? _]. contradiction.
  - intros [bc Hbc]. by apply blockCounts_Ok in Hbc as [? _].
Qed.

(** X2: The hour of the projection: [blocksPerHour] blocks of [avgBlockTime]
    seconds fit into 3600 s and one more block would not; the truncation
    of line 143 loses less than one block time per hour. *)
Theorem blocksPerHour_floor_bound (avg : Z) (bc : BlockCounts) :
  0 < avg ->
  blockCounts avg = Ok bc ->
  blocksPerHour bc * avg <= 3600 < (blocksPerHour bc + 1) * avg.
Proof.
  intros Havg Hbc. apply blockCounts_Ok in Hbc as [_ ->]. simpl.
  rewrite Z.quot_div_nonneg by lia.
  pose proof (Z.mul_div_le 3600 avg Havg).
  pose proof (Z.mul_succ_div_gt 3600 avg Havg). lia.
Qed.

Lemma blocksPerHour_floor_bound_witness :
  blocksPerHour Scenario.bc12 * 12 <= 3600
    < (blocksPerHour Scenario.bc12 + 1) * 12.
Proof.
  apply (blocksPerHour_floor_bound 12 Scenario.bc12).
  - lia.
  - reflexivity.
Defined.

(** X3: The two block timestamps of line 139 lead to a RangeError at line 143
    exactly when they are less than 100 seconds apart: the average block
    time truncates to 0 on every chain with sub-second blocks.  Line 139
    itself never throws. *)
Theorem sub_second_blocks_throw (latestTimestamp blockTimestamp : Z) :
  (exists avg, avgBlockTime latestTimestamp blockTimestamp = Ok avg) /\
  ((avg ← avgBlockTime latestTimestamp blockTimestamp; blockCounts avg)
     = Throw RangeError
   <-> -100 < latestTimestamp - blockTimestamp < 100).
Proof.
  unfold avgBlockTime. split; [by eexists|].
  unfold bigint_div at 1. destruct (decide (100 = 0)); [lia|]. simpl.
  rewrite blockCounts_Throw, Z.quot_small_iff by lia. split.
  - intros [H _]. lia.
  - intros H. split; [lia | reflexivity].
Qed.

(** X4: A slower chain never projects more blocks: the five counts do not
    increase when the average block time grows. *)
Theorem blockCounts_antitone (avg1 avg2 : Z) (bc1 bc2 : BlockCounts) :
  0 < avg1 <= avg2 ->
  blockCounts avg1 = Ok bc1 ->
  blockCounts avg2 = Ok bc2 ->
  blocksPerHour bc2 <= blocksPerHour bc1 /\
  blocksPerDay bc2 <= blocksPerDay bc1 /\
  blocksPerWeek bc2 <= blocksPerWeek bc1 /\
  blocksPerMonth bc2 <= blocksPerMonth bc1 /\
  blocksPerYear bc2 <= blocksPerYear bc1.
Proof.
  intros Havg H1 H2.
  apply blockCounts_Ok in H1 as [_ ->]. apply blockCounts_Ok in H2 as [_ ->].
  simpl. rewrite !Z.quot_div_nonneg by lia.
  assert (3600 / avg2 <= 3600 / avg1) by (apply Z.div_le_compat_l; lia).
  lia.
Qed.

Lemma blockCounts_antitone_witness :
  blocksPerHour (mkBlockCounts 240 5760 40320 161280 1935360)
    <= blocksPerHour Scenario.bc12 /\
  blocksPerDay (mkBlockCounts 240 5760 40320 161280 1935360)
    <= blocksPerDay Scenario.bc12 /\
  blocksPerWeek (mkBlockCounts 240 5760 40320 161280 1935360)
    <= blocksPerWeek Scenario.bc12 /\
  blocksPerMonth (mkBlockCounts 240 5760 40320 161280 1935360)
    <= blocksPerMonth Scenario.bc12 /\
  blocksPerYear (mkBlockCounts 240 5760 40320 161280 1935360)
    <= blocksPerYear Scenario.bc12.
Proof.
  apply (blockCounts_antitone 12 15).
  - lia.
  - reflexivity.
  - reflexivity.
Defined.

(** X5: The windows of the two yearly figures differ.  The reward per year
    is projected over 48 weeks of blocks (a month is 28 days, a year 12
    such months, 336 days), whereas the yearly APY is 52 times the
    weekly one. *)
Theorem year_is_48_weeks_of_blocks avg bc stgPerBlock totalAllocPoint p r m :
  blockCounts avg = Ok bc ->
  poolMetrics stgPerBlock totalAllocPoint bc p r = Ok m ->
  blocksPerMonth bc = 28 * blocksPerDay bc /\
  blocksPerYear bc = 336 * blocksPerDay bc /\
  blocksPerYear bc = 48 * blocksPerWeek bc /\
  rewardPerWeek m = mul (rewardPerBlock m) (Number (blocksPerWeek bc)) /\
  rewardPerYear m = mul (rewardPerBlock m) (Number (48 * blocksPerWeek bc)) /\
  yearlyAPY m = mul (weeklyAPY m) (Number 52).
Proof.
  intros Hbc Hm. apply blockCounts_Ok in Hbc as [_ ->].
  apply poolMetrics_Ok in Hm as (st & _ & ->). fields. simpl.
  split; [lia|]. split; [lia|]. split; [lia|]. split; [reflexivity|].
  split; [|reflexivity].
  unfold rewardPer. do 2 f_equal. lia.
Qed.

Lemma year_is_48_weeks_of_blocks_witness :
  let m := metricsWith Scenario.tenSTG 1000 Scenario.bc12
             (Scenario.poolOf 0 100 (10000 * 10 ^ 6))
             (Scenario.readsOf Scenario.WETH (100000 * 10 ^ 6))
             (Number 100000) in
  blocksPerMonth Scenario.bc12 = 28 * blocksPerDay Scenario.bc12 /\
  blocksPerYear Scenario.bc12 = 336 * blocksPerDay Scenario.bc12 /\
  blocksPerYear Scenario.bc12 = 48 * blocksPerWeek Scenario.bc12 /\
  rewardPerWeek m = mul (rewardPerBlock m) (Number (blocksPerWeek Scenario.bc12)) /\
  rewardPerYear m =
    mul (rewardPerBlock m) (Number (48 * blocksPerWeek Scenario.bc12)) /\
  yearlyAPY m = mul (weeklyAPY m) (Number 52).
Proof.
  apply (year_is_48_weeks_of_blocks 12 Scenario.bc12 Scenario.tenSTG 1000
           (Scenario.poolOf 0 100 (10000 * 10 ^ 6))
           (Scenario.readsOf Scenario.WETH (100000 * 10 ^ 6))).
  - reflexivity.
  - vm_compute. reflexivity.
Defined.

End BlockTimeMore.

(* ===================================================================== *)
(** * Further properties: active pools                                     *)
(* ===================================================================== *)

Section SelectorMore.

Lemma elem_of_fetchPools n pi ui (e : PoolEntry) :
  e ∈ fetchPools n pi ui <->
  exists k : nat, (k < n)%nat /\ e = (k, pi (Z.of_nat k), ui (Z.of_nat k)).
Proof.
  unfold fetchPools. rewrite list_elem_of_fmap. split.
  - intros (k & -> & Hk%elem_of_seq). exists k. split; [lia|done].
  - intros (k & Hk & ->). exists k. split; [done|]. apply elem_of_seq. lia.
Qed.

Lemma elem_of_activePools_fetch n pi ui (a : ActivePool) :
  a ∈ activePools (fetchPools n pi ui) <->
  exists k : nat,
    (k < n)%nat /\
    0 < pi_allocPoint (pi (Z.of_nat k)) /\
    0 < ui_amount (ui (Z.of_nat k)) /\
    a = toActive (k, pi (Z.of_nat k), ui (Z.of_nat k)).
Proof.
  unfold activePools. rewrite list_elem_of_fmap. split.
  - intros (e & -> & He). apply list_elem_of_filter in He as [Hact He].
    apply elem_of_fetchPools in He as (k & Hk & ->).
    apply isActive_true in Hact as [? ?]. exists k. auto.
  - intros (k & Hk & Ha & Hu & ->). eexists. split; [reflexivity|].
    apply list_elem_of_filter. split.
    + apply isActive_true. auto.
    + apply elem_of_fetchPools. eauto.
Qed.

(** X6: Every active pool comes from one pool ordinal below [poolLength]: its
    id is that ordinal, its fields are the values [poolInfo] and
    [userInfo] returned for it, and its allocation points and the user's
    stake are both positive.  Conversely every ordinal with positive
    allocation points and stake is among the active pools. *)
Theorem activePools_of_fetched n pi ui :
  (forall a, a ∈ activePools (fetchPools n pi ui) ->
     0 <= pid a < Z.of_nat n /\
     contract a = pi_lpToken (pi (pid a)) /\
     allocPoint a = pi_allocPoint (pi (pid a)) /\
     userStaked a = ui_amount (ui (pid a)) /\
     rewardDebt a = ui_rewardDebt (ui (pid a)) /\
     0 < allocPoint a /\ 0 < userStaked a) /\
  (forall k : Z,
     0 <= k < Z.of_nat n ->
     0 < pi_allocPoint (pi k) -> 0 < ui_amount (ui k) ->
     exists a, a ∈ activePools (fetchPools n pi ui) /\ pid a = k).
Proof.
  split.
  - intros a (k & Hk & Ha & Hu & ->)%elem_of_activePools_fetch. simpl.
    repeat split; try done; lia.
  - intros k Hk Ha Hu.
    exists (toActive (Z.to_nat k, pi k, ui k)). split.
    + apply elem_of_activePools_fetch. exists (Z.to_nat k).
      rewrite Z2Nat.id by lia. repeat split; try done. lia.
    + simpl. lia.
Qed.

(** X7: No pool is reported twice and there are at most [poolLength] active
    pools. *)
Theorem activePools_NoDup_bounded n pi ui :
  NoDup (pid <$> activePools (fetchPools n pi ui)) /\
  (length (activePools (fetchPools n pi ui)) <= n)%nat.
Proof.
  split.
  - unfold activePools. rewrite <- list_fmap_compose.
    apply (NoDup_fmap_2_strong (pid ∘ toActive)).
    + intros e1 e2 H1%list_elem_of_filter H2%list_elem_of_filter Heq.
      destruct H1 as [_ (k1 & _ & ->)%elem_of_fetchPools].
      destruct H2 as [_ (k2 & _ & ->)%elem_of_fetchPools].
      simpl in Heq. apply Nat2Z.inj in Heq. by subst.
    + apply NoDup_filter. unfold fetchPools.
      apply NoDup_fmap_2_strong; [|apply NoDup_seq].
      by intros k1 k2 _ _ [= ->].
  - unfold activePools. rewrite length_fmap.
    etransitivity; [apply length_filter|].
    unfold fetchPools. by rewrite length_fmap, length_seq.
Qed.

(** X8: The active set is empty exactly when no pool ordinal has both
    allocation points and a stake of the user; in particular for a user
    without any stake, and for [poolLength = 0]. *)
Theorem activePools_empty_iff n pi ui :
  activePools (fetchPools n pi ui) = [] <->
  forall k : nat, (k < n)%nat ->
    ~ (0 < pi_allocPoint (pi (Z.of_nat k)) /\ 0 < ui_amount (ui (Z.of_nat k))).
Proof.
  split.
  - intros Hnil k Hk [Ha Hu].
    assert (H : toActive (k, pi (Z.of_nat k), ui (Z.of_nat k))
                  ∈ activePools (fetchPools n pi ui))
      by (apply elem_of_activePools_fetch; eauto 6).
    rewrite Hnil in H. by apply not_elem_of_nil in H.
  - intros Hnone.
    destruct (activePools (fetchPools n pi ui)) as [|a l] eqn:Hl; [done|].
    assert (H : a ∈ activePools (fetchPools n pi ui))
      by (rewrite Hl; apply list_elem_of_here).
    apply elem_of_activePools_fetch in H as (k & Hk & Ha & Hu & _).
    exfalso. by apply (Hnone k Hk).
Qed.

End SelectorMore.

(* ===================================================================== *)
(** * Further properties: the batch of pool metrics                        *)
(* ===================================================================== *)

Section MetricsMore.

Lemma poolMetrics_Throw stgPerBlock totalAllocPoint bc p r e :
  poolMetrics stgPerBlock totalAllocPoint bc p r = Throw e ->
  e = RangeError /\ ~ 0 <= r_decimals r < 2 ^ 28.
Proof.
  unfold poolMetrics, stakedTokensOf.
  destruct (bigint_pow 10 (r_decimals r)) as [v|e'] eqn:Hpow.
  - apply bigint_pow_Ok in Hpow as [Hd ->]. simpl. unfold bigint_div.
    destruct (decide (10 ^ r_decimals r = 0)) as [H0|]; [|done].
    pose proof (Z.pow_pos_nonneg 10 (r_decimals r)). lia.
  - simpl. intros [= <-]. by apply bigint_pow_10_Throw.
Qed.

Lemma poolMetrics_too_big stgPerBlock totalAllocPoint bc p r :
  r_decimals r < 0 \/ 2 ^ 30 <= r_decimals r ->
  poolMetrics stgPerBlock totalAllocPoint bc p r = Throw RangeError.
Proof.
  intros Hd. unfold poolMetrics, stakedTokensOf.
  by rewrite bigint_pow_10_too_big.
Qed.

Lemma activePoolsWithNames_cons stgPerBlock totalAllocPoint bc reads p pools :
  activePoolsWithNames stgPerBlock totalAllocPoint bc reads (p :: pools) =
    m ← poolMetrics stgPerBlock totalAllocPoint bc p (reads (pid p));
    ms ← activePoolsWithNames stgPerBlock totalAllocPoint bc reads pools;
    Ok (m :: ms).
Proof. reflexivity. Qed.

(** A batch that resolved holds the object computed for each pool. *)
Lemma activePoolsWithNames_Ok stgPerBlock totalAllocPoint bc reads pools ms :
  activePoolsWithNames stgPerBlock totalAllocPoint bc reads pools = Ok ms ->
  Forall2 (fun p m =>
             poolMetrics stgPerBlock totalAllocPoint bc p (reads (pid p)) = Ok m)
          pools ms.
Proof.
  revert ms. induction pools as [|p pools IH]; intros ms H.
  - injection H as <-. constructor.
  - rewrite activePoolsWithNames_cons in H.
    bind_Ok H. bind_Ok H. injection H as <-.
    constructor; [done|]. by apply IH.
Qed.

(** X9: Lines 202-267: when every pool reports decimals below [2^28]
    (so that [10n ** decimals] is a BigInt the engine holds) the batch
    resolves, with one object per active pool, in the order of the active
    pools; each object carries its pool, the pool's reads and the metrics
    of that pool alone. *)
Theorem batch_keeps_pools_in_order stgPerBlock totalAllocPoint bc reads pools :
  Forall (fun p => 0 <= r_decimals (reads (pid p)) < 2 ^ 28) pools ->
  exists ms,
    activePoolsWithNames stgPerBlock totalAllocPoint bc reads pools = Ok ms /\
    pool <$> ms = pools /\
    token <$> ms = (fun p => r_token (reads (pid p))) <$> pools /\
    staked <$> ms = (fun p => r_lpSupply (reads (pid p))) <$> pools /\
    Forall2 (fun p m =>
               poolMetrics stgPerBlock totalAllocPoint bc p (reads (pid p)) = Ok m)
            pools ms.
Proof.
  induction 1 as [|p pools Hp _ IH].
  - exists []. repeat split. constructor.
  - destruct IH as (ms & Hms & Hpool & Htok & Hst & Hall).
    eexists. rewrite activePoolsWithNames_cons.
    rewrite poolMetrics_total by done.
    unfold mbind at 1, result_bind at 1. rewrite Hms.
    unfold mbind, result_bind. split; [reflexivity|].
    rewrite !fmap_cons, Hpool, Htok, Hst. repeat split.
    constructor; [|done]. by apply poolMetrics_total.
Qed.

Lemma batch_keeps_pools_in_order_witness :
  exists ms,
    activePoolsWithNames Scenario.tenSTG 1000 Scenario.bc12
      (poolReads Scenario.facts)
      [Scenario.poolOf 0 100 (10000 * 10 ^ 6);
       Scenario.poolOf 1 100 (10000 * 10 ^ 6)] = Ok ms /\
    pool <$> ms = [Scenario.poolOf 0 100 (10000 * 10 ^ 6);
                   Scenario.poolOf 1 100 (10000 * 10 ^ 6)] /\
    token <$> ms =
      (fun p => r_token (poolReads Scenario.facts (pid p))) <$>
        [Scenario.poolOf 0 100 (10000 * 10 ^ 6);
         Scenario.poolOf 1 100 (10000 * 10 ^ 6)] /\
    staked <$> ms =
      (fun p => r_lpSupply (poolReads Scenario.facts (pid p))) <$>
        [Scenario.poolOf 0 100 (10000 * 10 ^ 6);
         Scenario.poolOf 1 100 (10000 * 10 ^ 6)] /\
    Forall2 (fun p m =>
               poolMetrics Scenario.tenSTG 1000 Scenario.bc12 p
                 (poolReads Scenario.facts (pid p)) = Ok m)
            [Scenario.poolOf 0 100 (10000 * 10 ^ 6);
             Scenario.poolOf 1 100 (10000 * 10 ^ 6)] ms.
Proof.
  apply (batch_keeps_pools_in_order Scenario.tenSTG 1000 Scenario.bc12
           (poolReads Scenario.facts)).
  repeat constructor; simpl; lia.
Defined.

(** X10: [Promise.all] is all or nothing: one pool whose decimals are
    [2^30] or more (or negative) makes [10n ** decimals] throw and the
    whole batch reject with that RangeError, whatever the other pools
    are, and no object of another pool is kept; the batch rejects with
    nothing but a RangeError, and never while every pool's decimals are
    below [2^28]. *)
Theorem batch_is_all_or_nothing stgPerBlock totalAllocPoint bc reads pools :
  (Exists (fun p => r_decimals (reads (pid p)) < 0 \/
                    2 ^ 30 <= r_decimals (reads (pid p))) pools ->
   activePoolsWithNames stgPerBlock totalAllocPoint bc reads pools
     = Throw RangeError) /\
  (forall e,
     activePoolsWithNames stgPerBlock totalAllocPoint bc reads pools = Throw e ->
     e = RangeError /\
     Exists (fun p => ~ 0 <= r_decimals (reads (pid p)) < 2 ^ 28) pools).
Proof.
  assert (Hthrow : forall e,
    activePoolsWithNames stgPerBlock totalAllocPoint bc reads pools = Throw e ->
    e = RangeError /\
    Exists (fun p => ~ 0 <= r_decimals (reads (pid p)) < 2 ^ 28) pools).
  { induction pools as [|p pools IH]; [discriminate|].
    intros e. rewrite activePoolsWithNames_cons.
    destruct (poolMetrics _ _ _ p _) as [m|e'] eqn:Hm.
    - unfold mbind at 1, result_bind at 1.
      destruct (activePoolsWithNames _ _ _ _ pools) as [ms|e''] eqn:Hms.
      + discriminate.
      + unfold mbind, result_bind. intros [= <-].
        destruct (IH _ eq_refl) as [-> Hex]. split; [done|]. by right.
    - unfold mbind, result_bind. intros [= <-].
      apply poolMetrics_Throw in Hm as [-> Hbig]. split; [done|]. by left. }
  split; [|exact Hthrow].
  clear Hthrow. induction 1 as [p pools Hp|p pools _ IH].
  - rewrite activePoolsWithNames_cons, poolMetrics_too_big by done.
    reflexivity.
  - rewrite activePoolsWithNames_cons, IH.
    destruct (poolMetrics _ _ _ p _) as [m|e] eqn:Hm; [reflexivity|].
    apply poolMetrics_Throw in Hm as [-> _]. reflexivity.
Qed.

Lemma batch_is_all_or_nothing_witness :
  activePoolsWithNames Scenario.tenSTG 1000 Scenario.bc12
    (fun pid => if decide (pid = 0) then Scenario.readsOf Scenario.WETH 1500000
                else mkPoolReads "S*TOKEN" Scenario.WETH (2 ^ 64) "Token" 1500000 0)
    [Scenario.poolOf 0 100 1100000; Scenario.poolOf 1 100 1100000]
  = Throw RangeError.
Proof.
  apply (proj1 (batch_is_all_or_nothing Scenario.tenSTG 1000 Scenario.bc12 _
                  [Scenario.poolOf 0 100 1100000; Scenario.poolOf 1 100 1100000])).
  right. left. right. vm_compute. discriminate.
Defined.

(** X11: A pool whose supply reads as 0 (a stake read before the supply
    changed), with decimals below [2^28]: line 232 divides by zero as
    well, so the user's share and the four user rewards are not finite
    Numbers, like the four APY figures; nothing is raised. *)
Theorem zero_supply_user_figures_not_finite stgPerBlock totalAllocPoint bc p r :
  0 <= r_decimals r < 2 ^ 28 ->
  r_lpSupply r = 0 ->
  exists m,
    poolMetrics stgPerBlock totalAllocPoint bc p r = Ok m /\
    isFinite (userStakedPct m) = false /\
    isFinite (userDailyReward m) = false /\
    isFinite (userWeeklyReward m) = false /\
    isFinite (userMonthlyReward m) = false /\
    isFinite (userYearlyReward m) = false /\
    isFinite (weeklyAPY m) = false.
Proof.
  intros Hd Hs. eexists. split; [by apply poolMetrics_total|]. fields.
  rewrite Hs. rewrite Z.quot_0_l by (pose proof (Z.pow_pos_nonneg 10 (r_decimals r)); lia).
  assert (Hpct : isFinite (userStakedPctOf (userStaked p) 0) = false)
    by apply div_zero_not_finite.
  assert (Hur : forall reward,
            isFinite (userReward reward (userStakedPctOf (userStaked p) 0)) = false).
  { intros reward. unfold userReward, n100.
    rewrite div_not_finite_pos; by apply mul_not_finite_r. }
  repeat split; try done. apply div_zero_not_finite.
Qed.

Lemma zero_supply_user_figures_not_finite_witness :
  exists m,
    poolMetrics Scenario.tenSTG 1000 Scenario.bc12
      (Scenario.poolOf 0 100 500000) (Scenario.readsOf Scenario.WETH 0) = Ok m /\
    isFinite (userStakedPct m) = false /\
    isFinite (userDailyReward m) = false /\
    isFinite (userWeeklyReward m) = false /\
    isFinite (userMonthlyReward m) = false /\
    isFinite (userYearlyReward m) = false /\
    isFinite (weeklyAPY m) = false.
Proof.
  apply (zero_supply_user_figures_not_finite Scenario.tenSTG 1000 Scenario.bc12
           (Scenario.poolOf 0 100 500000) (Scenario.readsOf Scenario.WETH 0)).
  - simpl. lia.
  - reflexivity.
Defined.

End MetricsMore.

(* ===================================================================== *)
(** * Further properties: the price table                                  *)
(* ===================================================================== *)

Section ValuationMore.

Lemma CONTRACT_ADDRESSES_MAP_None (chain : string) :
  CONTRACT_ADDRESSES_MAP !! chain = None <->
  chain <> "mainnet" /\ chain <> "bsc" /\ chain <> "polygon".
Proof.
  unfold CONTRACT_ADDRESSES_MAP. rewrite !lookup_insert, lookup_empty.
  repeat case_decide; subst; split; try done; intros (? & ? & ?); done.
Qed.

(** The shape of a price table that was built. *)
Lemma tokenPrices_Ok chain cg stg tokens prices :
  tokenPrices chain cg stg tokens = Ok prices <->
  exists a response pricesResponse,
    CONTRACT_ADDRESSES_MAP !! chain = Some a /\
    tokenPricesResponse cg a tokens = Ok response /\
    simplePrice cg (priceIds chain) = Ok pricesResponse /\
    prices = withFixedEntries chain a stg pricesResponse response.
Proof.
  unfold tokenPrices, tokenPricesResponse, priceIds, withFixedEntries.
  split.
  - intros Hp. bind_Ok Hp. rename a into a0. 
    apply addressesOf_Ok in E. bind_Ok Hp.
    destruct (nativeTokenOf chain) as [nativeToken nativeTicker].
    bind_Ok Hp. injection Hp as <-.
    eexists _, _, _. repeat split; eauto.
  - intros (a & response & pr & Ha & Hr & Hpr & ->).
    apply addressesOf_Ok in Ha. rewrite Ha.
    unfold mbind at 1, result_bind at 1. rewrite Hr.
    unfold mbind at 1, result_bind at 1.
    destruct (nativeTokenOf chain) as [nativeToken nativeTicker].
    cbn [fst snd] in *. rewrite Hpr. reflexivity.
Qed.

Lemma tokenPrices_Throw chain cg stg tokens e a :
  CONTRACT_ADDRESSES_MAP !! chain = Some a ->
  tokenPrices chain cg stg tokens = Throw e <->
  tokenPricesResponse cg a tokens = Throw e \/
  ((exists response, tokenPricesResponse cg a tokens = Ok response) /\
   simplePrice cg (priceIds chain) = Throw e).
Proof.
  intros Ha. unfold tokenPrices, tokenPricesResponse, priceIds.
  apply addressesOf_Ok in Ha. rewrite Ha.
  unfold mbind at 1, result_bind at 1.
  destruct (match tokenPriceRequest _ with None => _ | Some _ => _ end)
    as [response|e1]; unfold mbind at 1, result_bind at 1.
  - destruct (nativeTokenOf chain) as [nativeToken nativeTicker].
    cbn [fst snd].
    destruct (simplePrice cg _) as [pr|e2]; unfold mbind, result_bind.
    + split; [discriminate|]. intros [?|[_ ?]]; discriminate.
    + split.
      * intros [= <-]. right. eauto.
      * intros [?|[_ [= <-]]]; [discriminate|done].
  - split.
    + intros [= <-]. by left.
    + intros [[= <-]|[[? ?] _]]; [done|discriminate].
Qed.


(** X12: The three names of the address table are its only rows.  For a
    run that got past the address check of line 103 with any other chain
    name that is not the name of a member of [Object.prototype], the
    [switch] of lines 107-120 falls back to the mainnet client, but the
    table lookup of line 129 reads a property of [undefined]: the run
    ends with a TypeError before any read, for every chain state and
    price service. *)
Theorem unknown_chain_throws :
  (forall chain,
     is_Some (CONTRACT_ADDRESSES_MAP !! chain) <->
     chain ∈ ["mainnet"; "bsc"; "polygon"]%string) /\
  (forall chain,
     chain ∉ ["mainnet"; "bsc"; "polygon"]%string ->
     chain ∉ objectPrototypeKeys ->
     chainOf chain = mainnet /\
     addressesOf chain = Throw TypeError /\
     forall address verbose facts cg,
       address <> ""%string ->
       main (mkArgs chain address verbose) facts cg = ([], Throw TypeError)).
Proof.
  split.
  - intros chain. rewrite !elem_of_cons, elem_of_nil. split.
    + intros [a Ha].
      apply CONTRACT_ADDRESSES_MAP_lookup in Ha. tauto.
    + destruct (CONTRACT_ADDRESSES_MAP !! chain) as [a|] eqn:Ha; [eauto|].
      apply CONTRACT_ADDRESSES_MAP_None in Ha. tauto.
  - intros chain Hnot _. rewrite !not_elem_of_cons in Hnot.
    destruct Hnot as (H1 & H2 & H3 & _).
    assert (Hthrow : addressesOf chain = Throw TypeError).
    { unfold addressesOf.
      by rewrite (proj2 (CONTRACT_ADDRESSES_MAP_None chain)). }
    split; [|split; [exact Hthrow|]].
    + unfold chainOf. by repeat case_decide.
    + intros address verbose facts cg _. unfold main, prepare. simpl.
      by rewrite Hthrow.
Qed.

Lemma unknown_chain_throws_witness :
  chainOf "arbitrum" = mainnet /\
  addressesOf "arbitrum" = Throw TypeError /\
  main (mkArgs "arbitrum" "0x0d4a11d5eeaac28ec3f61d100daf4d40471f1852" true)
       Scenario.facts Scenario.cgNoWETH = ([], Throw TypeError).
Proof.
  destruct (proj2 unknown_chain_throws "arbitrum") as (Hc & Ha & Hmain).
  - rewrite !not_elem_of_cons.
    repeat split; [discriminate | discriminate | discriminate |].
    apply not_elem_of_nil.
  - unfold objectPrototypeKeys. rewrite !not_elem_of_cons.
    repeat split; try discriminate. apply not_elem_of_nil.
  - split; [exact Hc|]. split; [exact Ha|].
    apply Hmain. discriminate.
Defined.



Lemma filteredTokens_nil (a : ContractAddresses) (tokens : list string) :
  filteredTokens a tokens = [] <-> Forall (fun t => t ∈ stableCoins a) tokens.
Proof.
  unfold filteredTokens. induction tokens as [|t tokens IH].
  - split; [constructor|done].
  - rewrite filter_cons. destruct (decide (t ∉ stableCoins a)) as [Hn|Hy].
    + split; [discriminate|]. intros [Ht _]%Forall_cons. contradiction.
    + rewrite IH. rewrite Forall_cons. split; [|tauto].
      intros Hall. split; [|done].
      by destruct (decide (t ∈ stableCoins a)).
Qed.

(** X14: The token-price request is left out exactly when every active pool is
    over USDC or USDT (also when there is no active pool); the table then
    does not depend on that part of the price service at all: two
    services that answer the stargate-finance/native request alike give
    the same table, or the same rejection. *)
Theorem stable_only_pools_send_no_token_request chain a stg tokens :
  CONTRACT_ADDRESSES_MAP !! chain = Some a ->
  (tokenPriceRequest (filteredTokens a tokens) = None <->
   Forall (fun t => t = USDC a \/ t = USDT a) tokens) /\
  (Forall (fun t => t = USDC a \/ t = USDT a) tokens ->
   forall cg cg',
     simplePrice cg (priceIds chain) = simplePrice cg' (priceIds chain) ->
     tokenPrices chain cg stg tokens = tokenPrices chain cg' stg tokens).
Proof.
  intros Ha.
  assert (Hiff : tokenPriceRequest (filteredTokens a tokens) = None <->
                 Forall (fun t => t = USDC a \/ t = USDT a) tokens).
  { rewrite tokenPriceRequest_None, filteredTokens_nil.
    apply Forall_proper; [|done]. intros t. unfold stableCoins.
    rewrite !elem_of_cons, elem_of_nil. tauto. }
  split; [exact Hiff|].
  intros Hall cg cg' Hsame. apply Hiff in Hall.
  rewrite !(tokenPrices_known _ _ _ _ _ Ha).
  unfold tokenPricesResponse. by rewrite Hall, Hsame.
Qed.

Lemma stable_only_pools_send_no_token_request_witness :
  let a := {| LP_STAKING := "0xB0D502E938ed5f4df2E681fE6E419ff29631d62b";
              USDC := "0xA0b86991c6218b36c1d19D4a2e9Eb0cE3606eB48";
              USDT := "0xdAC17F958D2ee523a2206206994597C13D831ec7" |} in
  (tokenPriceRequest (filteredTokens a [USDT a; USDC a]) = None <->
   Forall (fun t => t = USDC a \/ t = USDT a) [USDT a; USDC a]) /\
  (Forall (fun t => t = USDC a \/ t = USDT a) [USDT a; USDC a] ->
   forall cg cg',
     simplePrice cg (priceIds "mainnet") = simplePrice cg' (priceIds "mainnet") ->
     tokenPrices "mainnet" cg Scenario.STG [USDT a; USDC a] =
     tokenPrices "mainnet" cg' Scenario.STG [USDT a; USDC a]).
Proof.
  intros a.
  apply (stable_only_pools_send_no_token_request "mainnet" a Scenario.STG
           [USDT a; USDC a]).
  vm_compute. reflexivity.
Defined.

(** X15: The table fails exactly when one of the two requests is rejected,
    and with that rejection: the token-price request when it is sent,
    else the stargate-finance/native request.  Nothing else in lines
    273-334 throws once the chain is one of the table. *)
Theorem tokenPrices_fails_with_the_rejection chain a cg stg tokens e :
  CONTRACT_ADDRESSES_MAP !! chain = Some a ->
  tokenPrices chain cg stg tokens = Throw e <->
  (exists request,
     tokenPriceRequest (filteredTokens a tokens) = Some request /\
     simpleTokenPrice cg request = Throw e) \/
  ((tokenPriceRequest (filteredTokens a tokens) = None \/
    exists request response,
      tokenPriceRequest (filteredTokens a tokens) = Some request /\
      simpleTokenPrice cg request = Ok response) /\
   simplePrice cg (priceIds chain) = Throw e).
Proof.
  intros Ha. rewrite (tokenPrices_Throw _ _ _ _ _ _ Ha).
  unfold tokenPricesResponse.
  destruct (tokenPriceRequest (filteredTokens a tokens)) as [request|].
  - split.
    + intros [Hr|[[response Hr] Hp]]; [left; eauto|].
      right. split; [|done]. right. eauto.
    + intros [(req & [= <-] & Hr)|[[?|(req & response & [= <-] & Hr)] Hp]];
        [by left|discriminate|]. 
      right. split; [eauto|done].
  - split.
    + intros [?|[_ Hp]]; [discriminate|]. right. split; [by left|done].
    + intros [(req & ? & _)|[_ Hp]]; [discriminate|].
      right. split; [eauto|done].
Qed.

Lemma tokenPrices_fails_with_the_rejection_witness :
  let a := {| LP_STAKING := "0xB0D502E938ed5f4df2E681fE6E419ff29631d62b";
              USDC := "0xA0b86991c6218b36c1d19D4a2e9Eb0cE3606eB48";
              USDT := "0xdAC17F958D2ee523a2206206994597C13D831ec7" |} in
  let cg := {| simpleTokenPrice := fun _ => Throw RequestFailed;
               simplePrice := fun _ => Ok ∅ |} in
  tokenPrices "mainnet" cg Scenario.STG [Scenario.WETH] = Throw RequestFailed <->
  (exists request,
     tokenPriceRequest (filteredTokens a [Scenario.WETH]) = Some request /\
     simpleTokenPrice cg request = Throw RequestFailed) \/
  ((tokenPriceRequest (filteredTokens a [Scenario.WETH]) = None \/
    exists request response,
      tokenPriceRequest (filteredTokens a [Scenario.WETH]) = Some request /\
      simpleTokenPrice cg request = Ok response) /\
   simplePrice cg (priceIds "mainnet") = Throw RequestFailed).
Proof.
  intros a cg.
  apply (tokenPrices_fails_with_the_rejection "mainnet" a cg Scenario.STG
           [Scenario.WETH] RequestFailed).
  vm_compute. reflexivity.
Defined.

End ValuationMore.

(* ===================================================================== *)
(** * Further properties: the report and the whole run                     *)
(* ===================================================================== *)

Section ReporterMore.

Lemma usdOf_priceOf prices key :
  is_Some (prices !! key) -> usdOf prices key = Ok (priceOf prices key).
Proof. intros [entry H]. unfold usdOf, priceOf. by rewrite H. Qed.

Lemma reportPool_cases verbose prices stg index p :
  (is_Some (prices !! token p) /\ is_Some (prices !! stg) /\
   reportPool verbose prices stg index p =
     (poolLines verbose prices stg index p, Ok ())) \/
  ((prices !! token p = None \/ prices !! stg = None) /\
   reportPool verbose prices stg index p =
     (tokenLines verbose index p, Throw TypeError)).
Proof.
  unfold reportPool, poolLines.
  destruct (prices !! token p) as [e1|] eqn:H1.
  - rewrite usdOf_priceOf by (rewrite H1; eauto).
    destruct (prices !! stg) as [e2|] eqn:H2.
    + rewrite usdOf_priceOf by (rewrite H2; eauto). left. eauto.
    + rewrite (usdOf_None _ _ H2). right. eauto.
  - rewrite (usdOf_None _ _ H1). right. eauto.
Qed.

Lemma report_cons verbose prices stg index p rest :
  report verbose prices stg index (p :: rest) =
    match reportPool verbose prices stg index p with
    | (printed, Throw e) => (printed, Throw e)
    | (printed, Ok _) =>
        (printed ++ (report verbose prices stg (S index) rest).1,
         (report verbose prices stg (S index) rest).2)
    end.
Proof.
  simpl. destruct (reportPool _ _ _ _ _) as [printed [[]|e]]; [|done].
  by destruct (report _ _ _ _ rest).
Qed.

Lemma report_outcome verbose prices stg pools :
  is_Some (prices !! stg) ->
  forall index,
    ((report verbose prices stg index pools).2 = Ok () <->
     Forall (fun p => is_Some (prices !! token p)) pools) /\
    (Forall (fun p => is_Some (prices !! token p)) pools ->
     (report verbose prices stg index pools).1 =
       concat (imap (fun k p => poolLines verbose prices stg (index + k) p)
                    pools)) /\
    (forall e, (report verbose prices stg index pools).2 = Throw e ->
               e = TypeError).
Proof.
  intros Hstg. induction pools as [|p pools IH]; intros index.
  - simpl. repeat split; try done.
  - rewrite report_cons.
    destruct (IH (S index)) as (IHiff & IHout & IHexn).
    destruct (reportPool_cases verbose prices stg index p)
      as [(Hp & _ & ->)|([Hnone|Hnone] & ->)]; cbn [fst snd].
    + split; [|split].
      * rewrite IHiff, Forall_cons. tauto.
      * intros [_ Hall]%Forall_cons. rewrite (IHout Hall).
        rewrite imap_cons, concat_cons, Nat.add_0_r. f_equal. f_equal.
        apply imap_ext. intros k q _. cbn [compose]. f_equal. lia.
      * exact IHexn.
    + split; [|split].
      * split; [discriminate|]. intros [[? Hp] _]%Forall_cons. congruence.
      * intros [[? Hp] _]%Forall_cons. congruence.
      * by intros e [= <-].
    + destruct Hstg as [? Hstg]. congruence.
Qed.

(** X17: The pool loop completes exactly when the table has an entry for the
    token of every active pool (the reward token's entry being there, as
    it always is after lines 327-330); it then prints, pool after pool in
    the order of the active pools and numbered from 0 by position, the
    lines in token units followed by the lines in USD.  The only
    exception the loop can end with is a TypeError. *)
Theorem report_completes_iff_all_priced verbose prices stg pools :
  is_Some (prices !! stg) ->
  ((report verbose prices stg 0 pools).2 = Ok () <->
   Forall (fun p => is_Some (prices !! token p)) pools) /\
  (Forall (fun p => is_Some (prices !! token p)) pools ->
   (report verbose prices stg 0 pools).1 =
     concat (imap (fun k p => poolLines verbose prices stg k p) pools)) /\
  (forall e, (report verbose prices stg 0 pools).2 = Throw e -> e = TypeError).
Proof.
  intros Hstg. exact (report_outcome verbose prices stg pools Hstg 0).
Qed.

Lemma report_completes_iff_all_priced_witness :
  let m1 := metricsWith Scenario.tenSTG 1000 Scenario.bc12
              (Scenario.poolOf 1 100 (10000 * 10 ^ 6))
              (Scenario.readsOf "0xdAC17F958D2ee523a2206206994597C13D831ec7"
                                (100000 * 10 ^ 6)) (Number 100000) in
  ((report true Scenario.pricesNoWETH Scenario.STG 0 [m1]).2 = Ok () <->
   Forall (fun p => is_Some (Scenario.pricesNoWETH !! token p)) [m1]) /\
  (Forall (fun p => is_Some (Scenario.pricesNoWETH !! token p)) [m1] ->
   (report true Scenario.pricesNoWETH Scenario.STG 0 [m1]).1 =
     concat (imap (fun k p =>
                     poolLines true Scenario.pricesNoWETH Scenario.STG k p)
                  [m1])) /\
  (forall e,
     (report true Scenario.pricesNoWETH Scenario.STG 0 [m1]).2 = Throw e ->
     e = TypeError).
Proof.
  intros m1.
  apply (report_completes_iff_all_priced true Scenario.pricesNoWETH
           Scenario.STG [m1]).
  vm_compute. eauto.
Defined.

Lemma tokenLines_verbose_sublist index p :
  tokenLines false index p `sublist_of` tokenLines true index p.
Proof.
  unfold tokenLines.
  repeat (apply sublist_app; [try reflexivity; apply sublist_nil_l|]).
  reflexivity.
Qed.

Lemma usdLines_verbose_sublist lpTokenPrice stgPrice p :
  usdLines false lpTokenPrice stgPrice p
    `sublist_of` usdLines true lpTokenPrice stgPrice p.
Proof.
  unfold usdLines.
  repeat (apply sublist_app; [try reflexivity; apply sublist_nil_l|]).
  reflexivity.
Qed.

(** X18: The [--verbose] flag only adds lines: for the same pools and price
    table the run ends the same way with and without it, and the lines
    printed without it are a subsequence of the lines printed with it. *)
Theorem verbose_only_adds_lines prices stg index pools :
  (report false prices stg index pools).2 =
    (report true prices stg index pools).2 /\
  (report false prices stg index pools).1
    `sublist_of` (report true prices stg index pools).1.
Proof.
  revert index. induction pools as [|p pools IH]; intros index.
  - simpl. split; reflexivity.
  - rewrite !report_cons. destruct (IH (S index)) as [IHr IHl].
    destruct (reportPool_cases false prices stg index p)
      as [(Hp & Hs & ->)|(Hnone & ->)];
    destruct (reportPool_cases true prices stg index p)
      as [(Hp' & Hs' & ->)|(Hnone' & ->)]; cbn [fst snd].
    + split; [exact IHr|]. apply sublist_app; [|exact IHl].
      unfold poolLines. apply sublist_app.
      * apply tokenLines_verbose_sublist.
      * apply usdLines_verbose_sublist.
    + exfalso. destruct Hp, Hs, Hnone'; congruence.
    + exfalso. destruct Hp', Hs', Hnone; congruence.
    + split; [reflexivity|]. apply tokenLines_verbose_sublist.
Qed.

Lemma withFixedEntries_stable_keys chain a stg pr response :
  is_Some (withFixedEntries chain a stg pr response !! USDC a) /\
  is_Some (withFixedEntries chain a stg pr response !! USDT a) /\
  is_Some (withFixedEntries chain a stg pr response !! stg).
Proof.
  rewrite !withFixedEntries_lookup.
  repeat split; repeat case_decide; try congruence; eauto.
Qed.

(** X19: A run that got past the price requests completes exactly when the
    price table has an entry for the token of every active pool.  In
    particular a run whose active pools are all over USDC or USDT always
    completes, whatever the price service answered, and prints every
    pool in full. *)
Theorem main_completes_iff_all_priced args facts cg withNames prices :
  prepare args facts cg = Ok (withNames, prices) ->
  ((main args facts cg).2 = Ok () <->
   Forall (fun p => is_Some (prices !! token p)) withNames) /\
  (forall a,
     CONTRACT_ADDRESSES_MAP !! chain args = Some a ->
     Forall (fun p => token p = USDC a \/ token p = USDT a) withNames ->
     main args facts cg =
       (concat (imap (fun k p => poolLines (verbose args) prices (stargate facts) k p)
                     withNames),
        Ok ())).
Proof.
  intros Hprep. pose proof (prepare_Ok _ _ _ _ _ Hprep) as Hprices.
  pose proof (tokenPrices_stargate _ _ _ _ _ Hprices) as Hstg.
  destruct (report_outcome (verbose args) prices (stargate facts) withNames
              Hstg 0) as (Hiff & Hout & _).
  unfold main. rewrite Hprep. split; [exact Hiff|].
  intros a Ha Hstable.
  assert (Hall : Forall (fun p => is_Some (prices !! token p)) withNames).
  { apply tokenPrices_Ok in Hprices as (a' & response & pr & Ha' & _ & _ & ->).
    assert (a' = a) as -> by congruence.
    destruct (withFixedEntries_stable_keys (chain args) a (stargate facts)
                pr response) as (H1 & H2 & _).
    eapply Forall_impl; [exact Hstable|].
    intros p [->| ->]; done. }
  pose proof (proj2 Hiff Hall) as Hok. pose proof (Hout Hall) as Hlines.
  destruct (report _ _ _ _ _) as [printed r]. simpl in *. by subst.
Qed.

Lemma main_completes_iff_all_priced_witness :
  let m0 := metricsWith Scenario.tenSTG 1000 Scenario.bc12
              (Scenario.poolOf 0 100 (10000 * 10 ^ 6))
              (Scenario.readsOf Scenario.WETH (100000 * 10 ^ 6))
              (Number 100000) in
  let m1 := metricsWith Scenario.tenSTG 1000 Scenario.bc12
              (Scenario.poolOf 1 100 (10000 * 10 ^ 6))
              (Scenario.readsOf "0xdAC17F958D2ee523a2206206994597C13D831ec7"
                                (100000 * 10 ^ 6)) (Number 100000) in
  ((main Scenario.args Scenario.facts Scenario.cgNoWETH).2 = Ok () <->
   Forall (fun p => is_Some (Scenario.pricesNoWETH !! token p)) [m0; m1]) /\
  (forall a,
     CONTRACT_ADDRESSES_MAP !! chain Scenario.args = Some a ->
     Forall (fun p => token p = USDC a \/ token p = USDT a) [m0; m1] ->
     main Scenario.args Scenario.facts Scenario.cgNoWETH =
       (concat (imap (fun k p =>
                        poolLines (verbose Scenario.args) Scenario.pricesNoWETH
                                  (stargate Scenario.facts) k p) [m0; m1]),
        Ok ())).
Proof.
  intros m0 m1.
  apply (main_completes_iff_all_priced Scenario.args Scenario.facts
           Scenario.cgNoWETH [m0; m1] Scenario.pricesNoWETH).
  reflexivity.
Defined.




Lemma mul_NaN_r (x : number) : mul x NaN = NaN.
Proof. by destruct x. Qed.

(** X21: A price answer without a usable stargate-finance price is not an
    error: the reward token's entry is written with an undefined price,
    which reads as NaN, and every USD line of every pool, the verbose
    "LP Value" line excepted, prints NaN. *)
Theorem missing_reward_price_prints_NaN chain cg stg tokens prices :
  tokenPrices chain cg stg tokens = Ok prices ->
  stg <> zeroAddress ->
  (forall pricesResponse,
     simplePrice cg (priceIds chain) = Ok pricesResponse ->
     pricesResponse !! "stargate-finance" ≫= usd = None) ->
  usdOf prices stg = Ok NaN /\
  forall verbose lpTokenPrice p label value,
    Money label value ∈ usdLines verbose lpTokenPrice (priceOf prices stg) p ->
    label = "LP Value"%string \/ value = NaN.
Proof.
  intros (a & response & pr & Ha & Hr & Hpr & ->)%tokenPrices_Ok Hne Hmiss.
  specialize (Hmiss pr Hpr).
  assert (Hstg : withFixedEntries chain a stg pr response !! stg =
                 Some {| usd := None; ticker := Some STG_TICKER |}).
  { rewrite withFixedEntries_lookup.
    repeat case_decide; try congruence. unfold withTicker. by rewrite Hmiss. }
  split; [unfold usdOf; by rewrite Hstg|].
  intros verbose lpTokenPrice p label value.
  unfold priceOf. rewrite Hstg. cbn [usd ofUndefined].
  unfold usdLines. rewrite !mul_NaN_r.
  assert (HNaN : forall x, mul NaN x = NaN) by (by intros []).
  rewrite !HNaN. destruct verbose; cbn [app];
    rewrite !elem_of_cons, elem_of_nil; intros H;
    repeat (destruct H as [H|H]; [by inversion H; auto|]); done.
Qed.

Lemma missing_reward_price_prints_NaN_witness :
  let cg := {| simpleTokenPrice := fun _ => Ok ∅;
               simplePrice := fun _ => Ok ∅ |} in
  let a := {| LP_STAKING := "0xB0D502E938ed5f4df2E681fE6E419ff29631d62b";
              USDC := "0xA0b86991c6218b36c1d19D4a2e9Eb0cE3606eB48";
              USDT := "0xdAC17F958D2ee523a2206206994597C13D831ec7" |} in
  let prices := withFixedEntries "mainnet" a Scenario.STG ∅ ∅ in
  usdOf prices Scenario.STG = Ok NaN /\
  forall verbose lpTokenPrice p label value,
    Money label value
      ∈ usdLines verbose lpTokenPrice (priceOf prices Scenario.STG) p ->
    label = "LP Value"%string \/ value = NaN.
Proof.
  intros cg a prices.
  apply (missing_reward_price_prints_NaN "mainnet" cg Scenario.STG [] prices).
  - reflexivity.
  - discriminate.
  - intros pr [= <-]. reflexivity.
Defined.

End ReporterMore.

(* ===================================================================== *)
(** * Further properties: no overflow, no NaN on a consistent chain state  *)
(* ===================================================================== *)

Section RoundingFacts.

Lemma digits2_pos_bounds (p : positive) :
  2 ^ (Zpos (digits2_pos p) - 1) <= Zpos p < 2 ^ Zpos (digits2_pos p).
Proof.
  induction p as [p IH|p IH|]; simpl digits2_pos;
    [change (Zpos p~1) with (2 * Zpos p + 1)
    |change (Zpos p~0) with (2 * Zpos p) | simpl; lia];
    rewrite Pos2Z.inj_succ;
    set (d := Zpos (digits2_pos p)) in *;
    assert (Hd : 0 < d) by (unfold d; lia);
    replace (Z.succ d - 1) with (Z.succ (d - 1)) by lia;
    rewrite !Z.pow_succ_r by lia; lia.
Qed.

Lemma digits2_pos_unique (p : positive) (k : Z) :
  2 ^ (k - 1) <= Zpos p < 2 ^ k -> Zpos (digits2_pos p) = k.
Proof.
  intros [Hlo Hhi]. pose proof (digits2_pos_bounds p) as [Dlo Dhi].
  set (d := Zpos (digits2_pos p)) in *.
  assert (0 < k).
  { destruct (Z.lt_trichotomy k 0) as [Hn|[->|Hp]]; [|simpl in Hhi; lia|done].
    rewrite (Z.pow_neg_r 2 k) in Hhi by lia. lia. }
  destruct (Z.lt_trichotomy d k) as [Hlt|[Heq|Hgt]]; [|done|].
  - assert (2 ^ d <= 2 ^ (k - 1)) by (apply Z.pow_le_mono_r; lia). lia.
  - assert (2 ^ k <= 2 ^ (d - 1)) by (apply Z.pow_le_mono_r; lia). lia.
Qed.

Lemma shr_m_shr_1 (mrs : shr_record) :
  0 <= shr_m mrs -> shr_m (shr_1 mrs) = shr_m mrs / 2.
Proof.
  destruct mrs as [m r s]. cbn [shr_m]. intros Hm.
  destruct m as [|[q|q|]|q]; cbn [shr_1 shr_m].
  - reflexivity.
  - change (Zpos q~1) with (2 * Zpos q + 1).
    apply Z.div_unique with 1; lia.
  - change (Zpos q~0) with (2 * Zpos q).
    apply Z.div_unique with 0; lia.
  - reflexivity.
  - lia.
Qed.

Lemma shr_m_iter (n : positive) :
  forall mrs, 0 <= shr_m mrs ->
    shr_m (SpecFloat.iter_pos shr_1 n mrs) = shr_m mrs / 2 ^ Zpos n.
Proof.
  assert (Hpow : forall k, 0 < 2 ^ Zpos k) by (intros; apply Z.pow_pos_nonneg; lia).
  induction n as [n IH|n IH|]; intros mrs Hm; simpl SpecFloat.iter_pos.
  - assert (H1 : 0 <= shr_m (shr_1 mrs))
      by (rewrite shr_m_shr_1 by done; apply Z.div_pos; lia).
    assert (H2 : 0 <= shr_m (SpecFloat.iter_pos shr_1 n (shr_1 mrs))).
    { rewrite IH by done. apply Z.div_pos; [done|apply Hpow]. }
    rewrite IH, IH, shr_m_shr_1 by done.
    rewrite !Z.div_div by (pose proof (Hpow n); lia). f_equal.
    replace (Zpos n~1) with (1 + Zpos n + Zpos n) by lia.
    rewrite !Z.pow_add_r by lia. change (2 ^ 1) with 2. lia.
  - assert (H1 : 0 <= shr_m (SpecFloat.iter_pos shr_1 n mrs)).
    { rewrite IH by done. apply Z.div_pos; [done|apply Hpow]. }
    rewrite IH, IH by done.
    rewrite Z.div_div by (pose proof (Hpow n); lia). f_equal.
    replace (Zpos n~0) with (Zpos n + Zpos n) by lia.
    rewrite Z.pow_add_r by lia. lia.
  - by rewrite shr_m_shr_1.
Qed.

Lemma shr_spec (mrs : shr_record) (e n : Z) :
  0 <= n -> 0 <= shr_m mrs ->
  (shr mrs e n).2 = e + n /\ shr_m (shr mrs e n).1 = shr_m mrs / 2 ^ n.
Proof.
  intros Hn Hm. unfold shr. destruct n as [|p|p]; cbn [fst snd].
  - split; [lia|]. by rewrite Z.div_1_r.
  - split; [done|]. by apply shr_m_iter.
  - lia.
Qed.

Lemma shr_m_of_loc (m : Z) (l : location) : shr_m (shr_record_of_loc m l) = m.
Proof. by destruct l as [|[]]. Qed.

Lemma round_nearest_even_bounds (m : Z) (l : location) :
  m <= round_nearest_even m l <= m + 1.
Proof.
  unfold round_nearest_even. destruct l as [|[]]; try lia.
  destruct (Z.even m); lia.
Qed.

(** Rounding a mantissa of at least 53 digits whose magnitude lies in the
    normal range yields a normal number of the same sign, of the same
    magnitude or the next one. *)
Lemma binary_round_aux_normal (s : bool) (m : positive) (e : Z) (l : location) :
  53 <= Zpos (digits2_pos m) ->
  -1021 <= Zpos (digits2_pos m) + e <= 1023 ->
  exists m' e',
    binary_round_aux prec emax s (Zpos m) e l = S754_finite s m' e' /\
    Zpos (digits2_pos m') = 53 /\
    Zpos (digits2_pos m) + e <= e' + 53 <= Zpos (digits2_pos m) + e + 1.
Proof.
  intros Hd HM. pose proof (digits2_pos_bounds m) as Hm.
  set (d := Zpos (digits2_pos m)) in *.
  unfold binary_round_aux, shr_fexp. cbn [Zdigits2]. fold d.
  assert (Hfexp : fexp prec emax (d + e) - e = d - 53)
    by (unfold fexp, emin, prec, emax; lia).
  rewrite Hfexp.
  destruct (shr_spec (shr_record_of_loc (Zpos m) l) e (d - 53)) as [He' Hm1];
    [lia | rewrite shr_m_of_loc; lia |].
  destruct (shr (shr_record_of_loc (Zpos m) l) e (d - 53)) as [mrs' e'].
  cbn [fst snd] in He', Hm1. rewrite shr_m_of_loc in Hm1.
  (* the truncated mantissa has 53 digits *)
  assert (Hm1b : 2 ^ 52 <= shr_m mrs' < 2 ^ 53).
  { rewrite Hm1.
    assert (Hsplit : 2 ^ d = 2 ^ (d - 53) * 2 ^ 53)
      by (rewrite <- Z.pow_add_r by lia; f_equal; lia).
    assert (Hsplit' : 2 ^ (d - 1) = 2 ^ (d - 53) * 2 ^ 52)
      by (rewrite <- Z.pow_add_r by lia; f_equal; lia).
    assert (0 < 2 ^ (d - 53)) by (apply Z.pow_pos_nonneg; lia).
    split.
    - apply Z.div_le_lower_bound; lia.
    - apply Z.div_lt_upper_bound; lia. }
  pose proof (round_nearest_even_bounds (shr_m mrs') (loc_of_shr_record mrs')) as Hr.
  set (m2 := round_nearest_even (shr_m mrs') (loc_of_shr_record mrs')) in *.
  destruct m2 as [|q|q] eqn:Hq; [lia| |lia].
  destruct (decide (Zpos q < 2 ^ 53)) as [Hlt|Hge].
  - (* no carry *)
    assert (Hdq : Zpos (digits2_pos q) = 53)
      by (apply digits2_pos_unique; change (53 - 1) with 52; lia).
    cbn [Zdigits2]. rewrite Hdq.
    assert (Hf2 : fexp prec emax (53 + e') - e' = 0)
      by (unfold fexp, emin, prec, emax; lia).
    rewrite Hf2. cbn [shr shr_record_of_loc shr_m].
    assert (Hle : (e' <=? emax - prec) = true)
      by (apply Z.leb_le; unfold emax, prec; lia).
    rewrite Hle. exists q, e'. repeat split; try done; lia.
  - (* the rounding carried into a 54th digit *)
    assert (Hq53 : Zpos q = 2 ^ 53) by lia.
    assert (Hdq : Zpos (digits2_pos q) = 54)
      by (apply digits2_pos_unique; rewrite Hq53; split; [done|by apply Z.pow_lt_mono_r]).
    cbn [Zdigits2]. rewrite Hdq.
    assert (Hf2 : fexp prec emax (54 + e') - e' = 1)
      by (unfold fexp, emin, prec, emax; lia).
    rewrite Hf2.
    destruct (shr_spec (shr_record_of_loc (Zpos q) loc_Exact) e' 1) as [He'' Hm3];
      [lia | rewrite shr_m_of_loc; lia |].
    destruct (shr (shr_record_of_loc (Zpos q) loc_Exact) e' 1) as [mrs'' e''].
    cbn [fst snd] in He'', Hm3. rewrite shr_m_of_loc, Hq53 in Hm3.
    change (2 ^ 53 / 2 ^ 1) with (2 ^ 52) in Hm3. rewrite Hm3.
    change (2 ^ 52) with (Zpos (2 ^ 52)%positive).
    assert (Hle : (e'' <=? emax - prec) = true)
      by (apply Z.leb_le; unfold emax, prec; lia).
    rewrite Hle. exists (2 ^ 52)%positive, e''. repeat split; try done; lia.
Qed.

Lemma normalIn_weaken lo hi lo' hi' x :
  normalIn lo hi x -> lo' <= lo -> hi <= hi' -> normalIn lo' hi' x.
Proof. intros (m & e & -> & Hd & He) ? ?. exists m, e. repeat split; try done; lia. Qed.

Lemma digits2_pos_range (p : positive) (a b : Z) :
  2 ^ a <= Zpos p < 2 ^ b -> a + 1 <= Zpos (digits2_pos p) <= b.
Proof.
  intros [Hlo Hhi]. pose proof (digits2_pos_bounds p) as [Dlo Dhi].
  set (d := Zpos (digits2_pos p)) in *.
  assert (0 < d) by (unfold d; lia).
  split.
  - destruct (decide (a + 1 <= d)); [done|].
    destruct (decide (0 <= a)).
    + assert (2 ^ d <= 2 ^ a) by (apply Z.pow_le_mono_r; lia). lia.
    + lia.
  - destruct (decide (d <= b)); [done|].
    destruct (decide (0 <= b)).
    + assert (2 ^ b <= 2 ^ (d - 1)) by (apply Z.pow_le_mono_r; lia). lia.
    + rewrite Z.pow_neg_r in Hhi by lia. lia.
Qed.

Lemma mul_normal a1 b1 a2 b2 x y :
  normalIn a1 b1 x -> normalIn a2 b2 y ->
  -1021 <= a1 + a2 - 1 -> b1 + b2 <= 1023 ->
  normalIn (a1 + a2 - 1) (b1 + b2 + 1) (mul x y).
Proof.
  intros (mx & ex & -> & Hdx & Hex) (my & ey & -> & Hdy & Hey) Hlo Hhi.
  unfold mul. cbn [SFmul xorb].
  pose proof (digits2_pos_bounds mx) as Hx. rewrite Hdx in Hx.
  pose proof (digits2_pos_bounds my) as Hy. rewrite Hdy in Hy.
  change (53 - 1) with 52 in *.
  assert (Hprod : 2 ^ 104 <= Zpos (mx * my) < 2 ^ 106).
  { rewrite Pos2Z.inj_mul.
    change (2 ^ 104) with (2 ^ 52 * 2 ^ 52).
    change (2 ^ 106) with (2 ^ 53 * 2 ^ 53). nia. }
  apply digits2_pos_range in Hprod.
  destruct (binary_round_aux_normal false (mx * my) (ex + ey) loc_Exact)
    as (m' & e' & -> & Hd' & He'); [lia|lia|].
  exists m', e'. repeat split; try done; lia.
Qed.

Lemma SFdiv_core_binary_spec (m1 m2 : positive) (e1 e2 : Z) :
  let E := Zpos (digits2_pos m1) + e1 - (Zpos (digits2_pos m2) + e2) in
  -1021 <= E ->
  exists q e' l,
    SFdiv_core_binary prec emax (Zpos m1) e1 (Zpos m2) e2 = (Zpos q, e', l) /\
    53 <= Zpos (digits2_pos q) /\
    E <= Zpos (digits2_pos q) + e' <= E + 1.
Proof.
  intros E HE. unfold SFdiv_core_binary. cbn [Zdigits2].
  pose proof (digits2_pos_bounds m1) as H1.
  pose proof (digits2_pos_bounds m2) as H2.
  set (d1 := Zpos (digits2_pos m1)) in *.
  set (d2 := Zpos (digits2_pos m2)) in *.
  assert (Hd1 : 0 < d1) by (unfold d1; lia).
  assert (Hd2 : 0 < d2) by (unfold d2; lia).
  fold E.
  assert (Hfexp : fexp prec emax E = E - 53)
    by (unfold fexp, emin, prec, emax; lia).
  rewrite Hfexp.
  set (e' := Z.min (E - 53) (e1 - e2)).
  set (s := e1 - e2 - e').
  assert (Hs : 0 <= s) by (unfold s, e'; lia).
  set (m' := match s with Zpos _ => Z.shiftl (Zpos m1) s | Z0 => Zpos m1 | Zneg _ => 0 end).
  assert (Hm' : m' = Zpos m1 * 2 ^ s).
  { unfold m'. destruct s as [|p|p] eqn:Hsp.
    - simpl. lia.
    - by rewrite Z.shiftl_mul_pow2.
    - lia. }
  set (k := d1 + s - d2).
  assert (Hk : 53 <= k) by (unfold k, s, e', E; lia).
  assert (HA : 0 < 2 ^ (k - 1)) by (apply Z.pow_pos_nonneg; lia).
  assert (HB : 0 < 2 ^ (d2 - 1)) by (apply Z.pow_pos_nonneg; lia).
  assert (Hlo : 2 ^ (k - 1) * (2 * 2 ^ (d2 - 1)) <= m').
  { rewrite Hm'.
    replace (2 ^ (k - 1) * (2 * 2 ^ (d2 - 1))) with (2 ^ (d1 - 1) * 2 ^ s).
    - apply Z.mul_le_mono_nonneg_r; [apply Z.pow_nonneg|]; lia.
    - rewrite <- (Z.pow_succ_r 2 (d2 - 1)) by lia.
      rewrite <- !Z.pow_add_r by lia. f_equal. unfold k. lia. }
  assert (Hhi : m' < 4 * 2 ^ (k - 1) * 2 ^ (d2 - 1)).
  { rewrite Hm'.
    replace (4 * 2 ^ (k - 1) * 2 ^ (d2 - 1)) with (2 ^ d1 * 2 ^ s).
    - apply Z.mul_lt_mono_pos_r; [apply Z.pow_pos_nonneg|]; lia.
    - change 4 with (2 ^ 2).
      rewrite <- !Z.pow_add_r by lia. f_equal. unfold k. lia. }
  assert (H2' : 2 ^ d2 = 2 * 2 ^ (d2 - 1)).
  { rewrite <- (Z.pow_succ_r 2 (d2 - 1)) by lia. f_equal. lia. }
  destruct (Z.div_eucl m' (Zpos m2)) as [q r] eqn:Hqr.
  assert (Hq : q = m' / Zpos m2) by (unfold Z.div; by rewrite Hqr).
  assert (Hqlo : 2 ^ (k - 1) <= q).
  { rewrite Hq. apply Z.div_le_lower_bound; [lia|]. nia. }
  assert (Hqhi : q < 2 ^ (k + 1)).
  { rewrite Hq. apply Z.div_lt_upper_bound; [lia|].
    replace (2 ^ (k + 1)) with (4 * 2 ^ (k - 1)).
    - nia.
    - change 4 with (2 ^ 2). rewrite <- Z.pow_add_r by lia. f_equal. lia. }
  destruct q as [|q|q]; [lia| |lia].
  pose proof (digits2_pos_range q (k - 1) (k + 1) (conj Hqlo Hqhi)) as Hdq.
  eexists q, e', _. split; [reflexivity|].
  split; [lia|]. unfold k, s in Hdq. unfold E. lia.
Qed.

Lemma div_finite_normal (m1 m2 : positive) (e1 e2 : Z) :
  let E := Zpos (digits2_pos m1) + e1 - (Zpos (digits2_pos m2) + e2) in
  -1021 <= E -> E + 1 <= 1023 ->
  normalIn E (E + 2) (div (S754_finite false m1 e1) (S754_finite false m2 e2)).
Proof.
  intros E Hlo Hhi. unfold div. cbn [SFdiv xorb].
  destruct (SFdiv_core_binary_spec m1 m2 e1 e2 Hlo)
    as (q & e' & l & -> & Hdq & HM).
  fold E in HM.
  destruct (binary_round_aux_normal false q e' l) as (m' & e'' & -> & Hd' & He');
    [lia|lia|].
  exists m', e''. repeat split; try done; lia.
Qed.

Lemma div_normal a1 b1 a2 b2 x y :
  normalIn a1 b1 x -> normalIn a2 b2 y ->
  -1021 <= a1 - b2 -> b1 - a2 + 1 <= 1023 ->
  normalIn (a1 - b2) (b1 - a2 + 2) (div x y).
Proof.
  intros (mx & ex & -> & Hdx & Hex) (my & ey & -> & Hdy & Hey) Hlo Hhi.
  eapply normalIn_weaken; [apply div_finite_normal|..]; rewrite ?Hdx, ?Hdy; lia.
Qed.

Lemma Pos_iter_xO (m k : positive) :
  Zpos (Pos.iter xO m k) = Zpos m * 2 ^ Zpos k.
Proof.
  induction k as [|k IH] using Pos.peano_ind.
  - simpl. lia.
  - rewrite Pos.iter_succ, Pos2Z.inj_succ, Z.pow_succ_r by lia.
    change (Zpos (Pos.iter xO m k)~0) with (2 * Zpos (Pos.iter xO m k)).
    rewrite IH. lia.
Qed.

Lemma shl_align_spec (m : positive) (e e' : Z) :
  (shl_align m e e').2 = Z.min e e' /\
  Zpos (shl_align m e e').1 = Zpos m * 2 ^ (e - Z.min e e').
Proof.
  unfold shl_align. destruct (e' - e) as [|p|p] eqn:Hp; cbn [fst snd].
  - replace (Z.min e e') with e by lia. rewrite Z.sub_diag. simpl. lia.
  - replace (Z.min e e') with e by lia. rewrite Z.sub_diag. simpl. lia.
  - replace (Z.min e e') with e' by lia. split; [done|].
    rewrite Pos_iter_xO. do 2 f_equal. lia.
Qed.

Lemma Number_normal (z K : Z) :
  0 < z < 2 ^ K -> K <= 1022 -> normalIn 1 (K + 1) (Number z).
Proof.
  intros [Hz HK] HK'. destruct z as [|m|m]; [lia| |lia].
  unfold Number. cbn [binary_normalize]. unfold binary_round.
  pose proof (digits2_pos_bounds m) as Hm.
  set (d := Zpos (digits2_pos m)) in *.
  assert (Hd : 1 <= d <= K).
  { split; [unfold d; lia|].
    assert (H0 : 2 ^ 0 <= Zpos m < 2 ^ K) by (simpl; lia).
    apply digits2_pos_range in H0. fold d in H0. lia. }
  assert (Hfexp : fexp prec emax (d + 0) = d - 53)
    by (unfold fexp, emin, prec, emax; lia).
  rewrite Hfexp.
  destruct (shl_align_spec m 0 (d - 53)) as [Hez Hmz].
  destruct (shl_align m 0 (d - 53)) as [mz ez]. cbn [fst snd] in Hez, Hmz.
  assert (Hez' : ez <= 0) by lia.
  assert (Hdz : Zpos (digits2_pos mz) = d - ez).
  { apply digits2_pos_unique. rewrite Hmz, <- Hez.
    replace (0 - ez) with (- ez) by lia.
    replace (d - ez - 1) with ((d - 1) + - ez) by lia.
    replace (d - ez) with (d + - ez) by lia.
    rewrite !Z.pow_add_r by lia.
    assert (0 < 2 ^ (- ez)) by (apply Z.pow_pos_nonneg; lia).
    nia. }
  destruct (binary_round_aux_normal false mz ez loc_Exact)
    as (m' & e' & -> & Hd' & He'); [lia|lia|].
  exists m', e'. repeat split; try done; lia.
Qed.

End RoundingFacts.

Section FiniteFacts.

Lemma normalIn_finite lo hi x :
  normalIn lo hi x -> isFinite x = true /\ isZero x = false.
Proof. by intros (m & e & -> & _). Qed.

Lemma literal_normal :
  normalIn 7 7 n100 /\ normalIn 3 3 n7 /\ normalIn 3 3 n4 /\ normalIn 6 6 n52.
Proof. repeat split; eexists _, _; (split; [reflexivity|]); by vm_compute. Qed.

(** [parseFloat(formatUnits(v, 18))] of a positive amount below [2^K]. *)
Lemma stgPerBlockF_normal (v K : Z) :
  0 < v < 2 ^ K -> K <= 1000 -> normalIn (-59) (K - 58) (stgPerBlockF v).
Proof.
  intros [Hv HK] HK'. destruct v as [|m|m]; [lia| |lia].
  assert (H0 : 2 ^ 0 <= Zpos m < 2 ^ K) by (simpl; lia).
  apply digits2_pos_range in H0.
  unfold stgPerBlockF, parseFloat_formatUnits, STG_DECIMALS.
  change (10 ^ 18) with (Zpos 1000000000000000000).
  eapply normalIn_weaken; [apply div_finite_normal|..];
    change (Zpos (digits2_pos 1000000000000000000)) with 60; lia.
Qed.

(** With a block time between 1 s and one hour the five counts lie
    between 1 and 3600 * 8064. *)
Lemma blockCounts_range (avg : Z) (bc : BlockCounts) :
  0 < avg <= 3600 -> blockCounts avg = Ok bc ->
  0 < blocksPerDay bc < 2 ^ 25 /\ 0 < blocksPerWeek bc < 2 ^ 25 /\
  0 < blocksPerMonth bc < 2 ^ 25 /\ 0 < blocksPerYear bc < 2 ^ 25.
Proof.
  intros Havg Hbc. rewrite blockCounts_pos in Hbc by lia.
  injection Hbc as <-. cbn [blocksPerDay blocksPerWeek blocksPerMonth blocksPerYear].
  assert (0 < 3600 / avg) by (apply Z.div_str_pos; lia).
  assert (3600 / avg <= 3600) by (apply Z.div_le_upper_bound; nia).
  change (2 ^ 25) with 33554432. lia.
Qed.

(** A power of ten that fits in 256 bits has an exponent below 256. *)
Lemma pow10_fits_decimals (d : Z) :
  0 <= d -> 10 ^ d < 2 ^ 256 -> 0 <= d < 2 ^ 28.
Proof.
  intros Hd Hfit. split; [done|].
  destruct (decide (d < 256)) as [|Hbig]; [lia|]. exfalso.
  assert (2 ^ 256 <= 2 ^ d) by (apply Z.pow_le_mono_r; lia).
  assert (2 ^ d <= 10 ^ d) by (apply Z.pow_le_mono_l; lia).
  lia.
Qed.

(** Bound the magnitude of a product or quotient from the bounds of its
    operands, then widen to the bounds asked for. *)
Ltac magnitude_of :=
  first
    [ eassumption
    | first [ eapply mul_normal | eapply div_normal ];
      [ magnitude_of | magnitude_of | lia | lia ] ].

Ltac magnitude := eapply normalIn_weaken; [ magnitude_of | lia | lia ].

(** X22: A consistent chain state never yields Infinity, NaN or zero: when
    the emission rate, the pool's and the total allocation points, the
    user's stake and the pool supply are positive 256-bit amounts, the
    supply is at least one whole token, and the block time is between
    1 s and one hour, the metrics are computed and every one of the
    fourteen figures of the pool is a finite Number other than zero. *)
Theorem consistent_state_gives_finite_metrics
    stgPerBlock totalAllocPoint avg bc p r :
  0 < stgPerBlock < 2 ^ 256 ->
  0 < totalAllocPoint < 2 ^ 256 ->
  0 < allocPoint p < 2 ^ 256 ->
  0 < userStaked p < 2 ^ 256 ->
  0 <= r_decimals r ->
  10 ^ r_decimals r <= r_lpSupply r < 2 ^ 256 ->
  0 < avg <= 3600 ->
  blockCounts avg = Ok bc ->
  exists m,
    poolMetrics stgPerBlock totalAllocPoint bc p r = Ok m /\
    Forall (fun x => isFinite x = true /\ isZero x = false)
      [rewardPerBlock m; rewardPerDay m; rewardPerWeek m; rewardPerMonth m;
       rewardPerYear m; dailyAPY m; weeklyAPY m; monthlyAPY m; yearlyAPY m;
       userStakedPct m; userDailyReward m; userWeeklyReward m;
       userMonthlyReward m; userYearlyReward m].
Proof.
  intros Hstg Htotal Halloc Huser Hdec Hsupply Havg Hbc.
  eexists. split; [apply poolMetrics_total, pow10_fits_decimals; lia|]. fields.
  destruct (blockCounts_range avg bc Havg Hbc) as (Hday & Hweek & Hmonth & Hyear).
  destruct literal_normal as (H100 & H7 & H4 & H52).
  assert (Hpow : 0 < 10 ^ r_decimals r) by (apply Z.pow_pos_nonneg; lia).
  assert (Hwhole : 0 < Z.quot (r_lpSupply r) (10 ^ r_decimals r) < 2 ^ 256).
  { rewrite Z.quot_div_nonneg by lia. split.
    - apply Z.div_str_pos. lia.
    - apply Z.div_lt_upper_bound; [lia|]. nia. }
  pose proof (stgPerBlockF_normal stgPerBlock 256 Hstg ltac:(lia)) as HS.
  pose proof (Number_normal _ 256 Htotal ltac:(lia)) as HT.
  pose proof (Number_normal _ 256 Halloc ltac:(lia)) as HA.
  pose proof (Number_normal _ 256 Huser ltac:(lia)) as HU.
  pose proof (Number_normal (r_lpSupply r) 256 ltac:(lia) ltac:(lia)) as HL.
  pose proof (Number_normal _ 256 Hwhole ltac:(lia)) as Hst.
  pose proof (Number_normal _ 25 Hday ltac:(lia)) as Hbd.
  pose proof (Number_normal _ 25 Hweek ltac:(lia)) as Hbw.
  pose proof (Number_normal _ 25 Hmonth ltac:(lia)) as Hbm.
  pose proof (Number_normal _ 25 Hyear ltac:(lia)) as Hby.
  simpl in HS, HT, HA, HU, HL, Hst, Hbd, Hbw, Hbm, Hby.
  set (rpb := poolRewardPerBlock stgPerBlock (allocPoint p) totalAllocPoint).
  assert (Hrpb : normalIn (-316) 457 rpb)
    by (unfold rpb, poolRewardPerBlock; magnitude).
  assert (Hrd : normalIn (-316) 484 (rewardPer rpb (blocksPerDay bc)))
    by (unfold rewardPer; magnitude).
  assert (Hrw : normalIn (-316) 484 (rewardPer rpb (blocksPerWeek bc)))
    by (unfold rewardPer; magnitude).
  assert (Hrm : normalIn (-316) 484 (rewardPer rpb (blocksPerMonth bc)))
    by (unfold rewardPer; magnitude).
  assert (Hry : normalIn (-316) 484 (rewardPer rpb (blocksPerYear bc)))
    by (unfold rewardPer; magnitude).
  set (w := weeklyAPYOf (rewardPer rpb (blocksPerWeek bc))
              (Number (Z.quot (r_lpSupply r) (10 ^ r_decimals r)))).
  assert (Hw : normalIn (-567) 493 w) by (unfold w, weeklyAPYOf; magnitude).
  assert (Hd : normalIn (-570) 492 (div w n7)) by magnitude.
  assert (Hmo : normalIn (-565) 497 (mul w n4)) by magnitude.
  assert (Hy : normalIn (-562) 500 (mul w n52)) by magnitude.
  set (pct := userStakedPctOf (userStaked p) (r_lpSupply r)).
  assert (Hpct : normalIn (-250) 266 pct)
    by (unfold pct, userStakedPctOf; magnitude).
  assert (Hur : forall reward, normalIn (-316) 484 reward ->
                normalIn (-574) 746 (userReward reward pct))
    by (intros reward Hre; unfold userReward; magnitude).
  repeat (apply Forall_cons; split; [eapply normalIn_finite; eauto|]).
  apply Forall_nil_2.
Qed.

Lemma consistent_state_gives_finite_metrics_witness :
  exists m,
    poolMetrics Scenario.tenSTG 1000 Scenario.bc12
      (Scenario.poolOf 0 100 (10000 * 10 ^ 6))
      (Scenario.readsOf Scenario.WETH (100000 * 10 ^ 6)) = Ok m /\
    Forall (fun x => isFinite x = true /\ isZero x = false)
      [rewardPerBlock m; rewardPerDay m; rewardPerWeek m; rewardPerMonth m;
       rewardPerYear m; dailyAPY m; weeklyAPY m; monthlyAPY m; yearlyAPY m;
       userStakedPct m; userDailyReward m; userWeeklyReward m;
       userMonthlyReward m; userYearlyReward m].
Proof.
  apply (consistent_state_gives_finite_metrics Scenario.tenSTG 1000 12
           Scenario.bc12 (Scenario.poolOf 0 100 (10000 * 10 ^ 6))
           (Scenario.readsOf Scenario.WETH (100000 * 10 ^ 6))).
  - vm_compute. split; reflexivity.
  - vm_compute. split; reflexivity.
  - vm_compute. split; reflexivity.
  - vm_compute. split; reflexivity.
  - vm_compute. discriminate.
  - vm_compute. split; [discriminate|reflexivity].
  - lia.
  - reflexivity.
Defined.

Lemma mul_zero_normal lo hi y : normalIn lo hi y -> mul pZero y = pZero.
Proof. by intros (m & e & -> & _). Qed.

Lemma div_zero_normal lo hi y : normalIn lo hi y -> div pZero y = pZero.
Proof. by intros (m & e & -> & _). Qed.

(** X23: No emission: when [stargatePerBlock] reads 0 on an otherwise
    consistent chain state, the reward per block, its four projections,
    the four APY figures and the four user rewards are all exactly +0;
    no NaN appears, because the allocation ratio, the block counts, the
    whole-token count and the user's share are finite and not zero. *)
Theorem zero_emission_gives_zero_rewards totalAllocPoint avg bc p r :
  0 < totalAllocPoint < 2 ^ 256 ->
  0 < allocPoint p < 2 ^ 256 ->
  0 < userStaked p < 2 ^ 256 ->
  0 <= r_decimals r ->
  10 ^ r_decimals r <= r_lpSupply r < 2 ^ 256 ->
  0 < avg <= 3600 ->
  blockCounts avg = Ok bc ->
  exists m,
    poolMetrics 0 totalAllocPoint bc p r = Ok m /\
    Forall (fun x => x = pZero)
      [rewardPerBlock m; rewardPerDay m; rewardPerWeek m; rewardPerMonth m;
       rewardPerYear m; dailyAPY m; weeklyAPY m; monthlyAPY m; yearlyAPY m;
       userDailyReward m; userWeeklyReward m; userMonthlyReward m;
       userYearlyReward m] /\
    isFinite (userStakedPct m) = true /\ isZero (userStakedPct m) = false.
Proof.
  intros Htotal Halloc Huser Hdec Hsupply Havg Hbc.
  eexists. split; [apply poolMetrics_total, pow10_fits_decimals; lia|]. fields.
  destruct (blockCounts_range avg bc Havg Hbc) as (Hday & Hweek & Hmonth & Hyear).
  destruct literal_normal as (H100 & H7 & H4 & H52).
  assert (Hpow : 0 < 10 ^ r_decimals r) by (apply Z.pow_pos_nonneg; lia).
  assert (Hwhole : 0 < Z.quot (r_lpSupply r) (10 ^ r_decimals r) < 2 ^ 256).
  { rewrite Z.quot_div_nonneg by lia. split.
    - apply Z.div_str_pos. lia.
    - apply Z.div_lt_upper_bound; [lia|]. nia. }
  pose proof (Number_normal _ 256 Htotal ltac:(lia)) as HT.
  pose proof (Number_normal _ 256 Halloc ltac:(lia)) as HA.
  pose proof (Number_normal _ 256 Huser ltac:(lia)) as HU.
  pose proof (Number_normal (r_lpSupply r) 256 ltac:(lia) ltac:(lia)) as HL.
  pose proof (Number_normal _ 256 Hwhole ltac:(lia)) as Hst.
  pose proof (Number_normal _ 25 Hday ltac:(lia)) as Hbd.
  pose proof (Number_normal _ 25 Hweek ltac:(lia)) as Hbw.
  pose proof (Number_normal _ 25 Hmonth ltac:(lia)) as Hbm.
  pose proof (Number_normal _ 25 Hyear ltac:(lia)) as Hby.
  simpl in HT, HA, HU, HL, Hst, Hbd, Hbw, Hbm, Hby.
  assert (Hratio : normalIn (-256) 258
            (div (Number (allocPoint p)) (Number totalAllocPoint)))
    by magnitude.
  assert (Hrpb : poolRewardPerBlock 0 (allocPoint p) totalAllocPoint = pZero).
  { unfold poolRewardPerBlock.
    change (stgPerBlockF 0) with pZero. by eapply mul_zero_normal. }
  rewrite Hrpb. unfold rewardPer, weeklyAPYOf.
  rewrite !(mul_zero_normal _ _ _ Hbd), !(mul_zero_normal _ _ _ Hbw),
    !(mul_zero_normal _ _ _ Hbm), !(mul_zero_normal _ _ _ Hby).
  rewrite (mul_zero_normal _ _ _ H100), (div_zero_normal _ _ _ Hst).
  rewrite (div_zero_normal _ _ _ H7), (mul_zero_normal _ _ _ H4),
    (mul_zero_normal _ _ _ H52).
  assert (Hpct : normalIn (-250) 266
            (userStakedPctOf (userStaked p) (r_lpSupply r)))
    by (unfold userStakedPctOf; magnitude).
  unfold userReward.
  rewrite (mul_zero_normal _ _ _ Hpct), (div_zero_normal _ _ _ H100).
  split; [repeat constructor|]. by eapply normalIn_finite.
Qed.

Lemma zero_emission_gives_zero_rewards_witness :
  exists m,
    poolMetrics 0 1000 Scenario.bc12
      (Scenario.poolOf 0 100 (10000 * 10 ^ 6))
      (Scenario.readsOf Scenario.WETH (100000 * 10 ^ 6)) = Ok m /\
    Forall (fun x => x = pZero)
      [rewardPerBlock m; rewardPerDay m; rewardPerWeek m; rewardPerMonth m;
       rewardPerYear m; dailyAPY m; weeklyAPY m; monthlyAPY m; yearlyAPY m;
       userDailyReward m; userWeeklyReward m; userMonthlyReward m;
       userYearlyReward m] /\
    isFinite (userStakedPct m) = true /\ isZero (userStakedPct m) = false.
Proof.
  apply (zero_emission_gives_zero_rewards 1000 12
           Scenario.bc12 (Scenario.poolOf 0 100 (10000 * 10 ^ 6))
           (Scenario.readsOf Scenario.WETH (100000 * 10 ^ 6))).
  - vm_compute. split; reflexivity.
  - vm_compute. split; reflexivity.
  - vm_compute. split; reflexivity.
  - vm_compute. discriminate.
  - vm_compute. split; [discriminate|reflexivity].
  - lia.
  - reflexivity.
Defined.

End FiniteFacts.

Section RequestFacts.

(** X16: The token-price request asks for exactly the tokens of the active
    pools other than the two stablecoins, in the order of the pools and
    once per pool: the list is the pool tokens filtered by that test, so
    a token that is not a stablecoin occurs in it as many times as among
    the pool tokens, and a stablecoin never.  Whenever the request is
    sent it names the platform "ethereum" and the currency "usd", on
    every chain, and its addresses are those tokens joined by commas. *)
Theorem token_request_lists_the_other_tokens (a : ContractAddresses)
    (tokens : list string) :
  filteredTokens a tokens =
    filter (fun t => t <> USDC a /\ t <> USDT a) tokens /\
  (forall t,
     length (filter (eq t) (filteredTokens a tokens)) =
       if decide (t = USDC a \/ t = USDT a) then 0%nat
       else length (filter (eq t) tokens)) /\
  (forall t, t ∈ filteredTokens a tokens <->
             t ∈ tokens /\ t <> USDC a /\ t <> USDT a) /\
  filteredTokens a tokens `sublist_of` tokens /\
  (forall request,
     tokenPriceRequest (filteredTokens a tokens) = Some request ->
     id request = "ethereum"%string /\
     vs_currencies request = "usd"%string /\
     contract_addresses request = String.concat "," (filteredTokens a tokens) /\
     exists t, t ∈ tokens /\ t <> USDC a /\ t <> USDT a).
Proof.
  split; [apply filteredTokens_filter|].
  split.
  { intros t. rewrite filteredTokens_filter.
    induction tokens as [|x tokens IH].
    - by case_decide.
    - rewrite !filter_cons.
      destruct (decide (x <> USDC a /\ x <> USDT a)) as [Hx|Hx].
      + rewrite filter_cons. destruct (decide (t = x)) as [->|Hne].
        * cbn [length]. rewrite IH.
          destruct (decide (x = USDC a \/ x = USDT a)); [tauto|done].
        * rewrite IH. reflexivity.
      + destruct (decide (t = x)) as [->|Hne]; [|exact IH].
        rewrite IH.
        destruct (decide (x = USDC a \/ x = USDT a)) as [|Hn]; [done|].
        exfalso. apply Hx. split; intros ->; apply Hn; auto. }
  split; [apply filteredTokens_spec|].
  split; [apply sublist_filter|].
  intros request Hreq.
  pose proof (tokenPriceRequest_Some _ _ Hreq) as [Hne Hjoin].
  unfold tokenPriceRequest in Hreq.
  destruct (decide (length (filteredTokens a tokens) = 0%nat)); [done|].
  injection Hreq as <-. cbn [id vs_currencies].
  split; [done|]. split; [done|]. split; [exact Hjoin|].
  destruct (filteredTokens a tokens) as [|t l] eqn:Hl; [done|].
  exists t. apply filteredTokens_spec. rewrite Hl. apply list_elem_of_here.
Qed.

Lemma token_request_lists_the_other_tokens_witness :
  filteredTokens (mkContractAddresses "" "0xUSDC" "0xUSDT")
    ["0xA"; "0xUSDC"; "0xB"; "0xUSDT"; "0xA"] = ["0xA"; "0xB"; "0xA"]%string /\
  length (filter (eq "0xA"%string)
            (filteredTokens (mkContractAddresses "" "0xUSDC" "0xUSDT")
               ["0xA"; "0xUSDC"; "0xB"; "0xUSDT"; "0xA"])) = 2%nat /\
  exists request,
    tokenPriceRequest
      (filteredTokens (mkContractAddresses "" "0xUSDC" "0xUSDT")
         ["0xA"; "0xUSDC"; "0xB"; "0xUSDT"; "0xA"]) = Some request /\
    id request = "ethereum"%string /\
    vs_currencies request = "usd"%string /\
    contract_addresses request = "0xA,0xB,0xA"%string.
Proof.
  destruct (token_request_lists_the_other_tokens
              (mkContractAddresses "" "0xUSDC" "0xUSDT")
              ["0xA"; "0xUSDC"; "0xB"; "0xUSDT"; "0xA"]%string)
    as (Hfilter & Hcount & _ & _ & Hreq).
  split; [rewrite Hfilter; vm_compute; reflexivity|].
  split; [rewrite Hcount; vm_compute; reflexivity|].
  eexists. split; [vm_compute; reflexivity|].
  destruct (Hreq _ ltac:(vm_compute; reflexivity)) as (H1 & H2 & H3 & _).
  split; [exact H1|]. split; [exact H2|].
  rewrite H3. vm_compute. reflexivity.
Defined.

End RequestFacts.
